(** * Currency swap form: the loader, the calculator, the validator

    A shallow embedding of [src/src/CurrencySwapForm.tsx].  The component's
    [useState] cells and its one [useRef] cell become the fields of a record
    [State]; every callback of the component becomes a function that reads
    the state of the render it was created in and threads the writes through
    a small state monad.

    JavaScript numbers are IEEE 754 binary64 values: they are modelled by
    [spec_float] (the executable specification of the Standard Library)
    at precision 53 and maximal exponent 1024.  The parts of the runtime that
    the component calls ([parseFloat], [Number.prototype.toFixed], the
    relational operators, [Map], the regular expression of the amount
    field) are modelled in the modules [JS], [Regex] and [JSMap]. *)

From Stdlib Require Import ZArith List String Ascii Bool Lia.
From Stdlib Require Import Floats.SpecFloat.
Import ListNotations.

Local Open Scope string_scope.
Local Open Scope Z_scope.

(** ** Characters and digit strings *)

Module Chars.

Definition code (c : ascii) : Z := Z.of_N (N_of_ascii c).

Definition is_digit (c : ascii) : bool := (48 <=? code c) && (code c <=? 57).

Definition digit_val (c : ascii) : Z := code c - 48.

Definition digit_char (d : Z) : ascii := ascii_of_N (Z.to_N (48 + d)).

(** WhiteSpace and LineTerminator code units below 256. *)
Definition is_white_space (c : ascii) : bool :=
  let n := code c in
  ((9 <=? n) && (n <=? 13)) || (n =? 32) || (n =? 160).

Fixpoint all_digits (s : string) : bool :=
  match s with
  | EmptyString => true
  | String c r => is_digit c && all_digits r
  end.

(** The longest prefix of digits, and what follows it. *)
Fixpoint span_digits (s : string) : string * string :=
  match s with
  | EmptyString => (EmptyString, EmptyString)
  | String c r =>
      if is_digit c
      then let '(d, t) := span_digits r in (String c d, t)
      else (EmptyString, s)
  end.

(** Horner evaluation of a digit string in base ten. *)
Fixpoint digits_value (acc : Z) (s : string) : Z :=
  match s with
  | EmptyString => acc
  | String c r => digits_value (10 * acc + digit_val c) r
  end.

Fixpoint trim_start (s : string) : string :=
  match s with
  | EmptyString => EmptyString
  | String c r => if is_white_space c then trim_start r else s
  end.

Fixpoint repeat_char (c : ascii) (n : nat) : string :=
  match n with
  | O => EmptyString
  | S k => String c (repeat_char c k)
  end.

(** The decimal digits of a non-negative integer, most significant first;
    the fuel bounds the number of digits produced. *)
Fixpoint digits_of_fuel (fuel : nat) (n : Z) (acc : string) : string :=
  match fuel with
  | O => acc
  | S k =>
      let acc' := String (digit_char (n mod 10)) acc in
      if n / 10 =? 0 then acc' else digits_of_fuel k (n / 10) acc'
  end.

Definition digits_of (n : Z) : string :=
  digits_of_fuel (S (Z.to_nat (Z.log2 n))) n EmptyString.

End Chars.

(** ** The JavaScript runtime: numbers *)

Module JS.
Import Chars.

Definition number : Type := spec_float.

Definition prec : Z := 53.
Definition emax : Z := 1024.

Definition NaN : number := S754_nan.
Definition Infinity : number := S754_infinity false.
Definition zero : number := S754_zero false.

(** Relational operators [<], [<=], [>] on numbers. *)
Definition lt (x y : number) : bool := SFltb x y.
Definition le (x y : number) : bool := SFleb x y.
Definition gt (x y : number) : bool := SFltb y x.

Definition isNaN (x : number) : bool :=
  match x with S754_nan => true | _ => false end.

(** ToBoolean on a number: [+0], [-0] and [NaN] are falsy. *)
Definition truthy (x : number) : bool :=
  match x with
  | S754_zero _ | S754_nan => false
  | _ => true
  end.

Definition mul (x y : number) : number := SFmul prec emax x y.
Definition div (x y : number) : number := SFdiv prec emax x y.

(** The number denoted by an integer literal. *)
Definition of_Z (z : Z) : number := binary_normalize prec emax z 0 false.

(** The binary64 value nearest to [n / d] (ties to even), with sign [sx]. *)
Definition round_ratio (sx : bool) (n d : positive) : number :=
  let '(q, e, l) := SFdiv_core_binary prec emax (Zpos n) 0 (Zpos d) 0 in
  binary_round_aux prec emax sx q e l.

(** The binary64 value nearest to [m * 10^k], for [0 <= m]. *)
Definition of_decimal (sx : bool) (m k : Z) : number :=
  match m with
  | Z0 => S754_zero sx
  | Zpos p =>
      match k with
      | Zneg j => round_ratio sx p (Pos.pow 10 j)
      | _ => binary_round prec emax sx (p * Z.to_pos (10 ^ k)) 0
      end
  | Zneg _ => NaN
  end.

(** *** [parseFloat]

    The argument is trimmed at its start, the longest prefix that is a
    StrDecimalLiteral is taken, and its mathematical value is rounded. *)

Inductive unsigned_literal :=
| LitInfinity
| LitDecimal (int_part frac_part : string) (exponent : Z).

Definition is_exponent_indicator (c : ascii) : bool :=
  (code c =? 101) || (code c =? 69).

(** ExponentPart, when one stands at the head of [s]; 0 otherwise. *)
Definition parse_exponent (s : string) : Z :=
  match s with
  | String c r =>
      if is_exponent_indicator c then
        let '(neg, r') :=
          match r with
          | String "+" t => (false, t)
          | String "-" t => (true, t)
          | _ => (false, r)
          end in
        match fst (span_digits r') with
        | EmptyString => 0
        | ds => if neg then - digits_value 0 ds else digits_value 0 ds
        end
      else 0
  | EmptyString => 0
  end.

Definition parse_unsigned (s : string) : option unsigned_literal :=
  if prefix "Infinity" s then Some LitInfinity
  else
    let '(i, r) := span_digits s in
    match r with
    | String "." r1 =>
        let '(f, r2) := span_digits r1 in
        match i, f with
        | EmptyString, EmptyString => None
        | _, _ => Some (LitDecimal i f (parse_exponent r2))
        end
    | _ =>
        match i with
        | EmptyString => None
        | _ => Some (LitDecimal i EmptyString (parse_exponent r))
        end
    end.

Definition parseFloat (input : string) : number :=
  let t := trim_start input in
  let '(neg, u) :=
    match t with
    | String "+" r => (false, r)
    | String "-" r => (true, r)
    | _ => (false, t)
    end in
  match parse_unsigned u with
  | None => NaN
  | Some LitInfinity => S754_infinity neg
  | Some (LitDecimal i f e) =>
      of_decimal neg (digits_value 0 (i ++ f)) (e - Z.of_nat (length f))
  end.

(** *** [Number.prototype.toFixed]

    A finite number [m * 2^e] is an exact rational; the steps of [toFixed]
    are carried out on that rational with integer arithmetic. *)

(** The integer nearest to [m * 2^e * 10^f], the larger one on a tie. *)
Definition scaled_nearest (m : positive) (e : Z) (f : nat) : Z :=
  let a := Zpos m * 10 ^ Z.of_nat f in
  match e with
  | Zneg p => (2 * a + 2 ^ Zpos p) / 2 ^ (Zpos p + 1)
  | _ => a * 2 ^ e
  end.

(** [10^21 <= m * 2^e]. *)
Definition at_least_1e21 (m : positive) (e : Z) : bool :=
  match e with
  | Zneg p => 10 ^ 21 * 2 ^ Zpos p <=? Zpos m
  | _ => 10 ^ 21 <=? Zpos m * 2 ^ e
  end.

(** The digits of [n], padded on the left to more than [f] digits, with a
    point before the last [f] of them. *)
Definition fixed_point (f : nat) (n : Z) : string :=
  let m := if n =? 0 then "0" else digits_of n in
  match f with
  | O => m
  | _ =>
      let k := length m in
      let m' := if (k <=? f)%nat then repeat_char "0" (f + 1 - k) ++ m else m in
      let k' := length m' in
      substring 0 (k' - f) m' ++ "." ++ substring (k' - f) f m'
  end.

Definition same_number (x y : number) : bool :=
  match x, y with
  | S754_zero s1, S754_zero s2 => Bool.eqb s1 s2
  | S754_infinity s1, S754_infinity s2 => Bool.eqb s1 s2
  | S754_nan, S754_nan => true
  | S754_finite s1 m1 e1, S754_finite s2 m2 e2 =>
      Bool.eqb s1 s2 && Pos.eqb m1 m2 && Z.eqb e1 e2
  | _, _ => false
  end.

(** Number::toString on a finite [x = num / den] with [10^21 <= x]: the
    shortest digit string [s] of [k] digits with [s * 10^(n-k)] rounding
    to [x], the nearest to [x] when there are several, written in
    exponent form (here [n-1 >= 21]). *)
Definition candidates (num den n0 k : Z) : list (Z * Z) :=
  let a := num / (den * 10 ^ (n0 - k)) in
  [ (a, n0);
    (if a + 1 <? 10 ^ k then (a + 1, n0) else (10 ^ (k - 1), n0 + 1)) ].

Definition distance (num den k : Z) (c : Z * Z) : Z :=
  Z.abs (num - fst c * 10 ^ (snd c - k) * den).

Definition pick (num den k : Z) (cs : list (Z * Z)) : option (Z * Z) :=
  match cs with
  | [] => None
  | [c] => Some c
  | c1 :: c2 :: _ =>
      match distance num den k c1 ?= distance num den k c2 with
      | Lt => Some c1
      | Gt => Some c2
      | Eq => Some (if Z.even (fst c1) then c1 else c2)
      end
  end.

Fixpoint shortest (fuel : nat) (k : Z) (x : number) (num den n0 : Z)
  : Z * Z * Z :=
  match fuel with
  | O => (num / (den * 10 ^ (n0 - 17)), n0, 17)
  | S fuel' =>
      let ok := fun c : Z * Z =>
                  same_number (of_decimal false (fst c) (snd c - k)) x in
      match pick num den k (filter ok (candidates num den n0 k)) with
      | Some (s, n) => (s, n, k)
      | None => shortest fuel' (k + 1) x num den n0
      end
  end.

Definition toString_large (m : positive) (e : Z) : string :=
  let '(num, den) :=
    match e with
    | Zneg p => (Zpos m, 2 ^ Zpos p)
    | _ => (Zpos m * 2 ^ e, 1)
    end in
  let n0 := Z.of_nat (length (digits_of (num / den))) in
  let '(s, n, k) := shortest 17 1 (S754_finite false m e) num den n0 in
  let ds := digits_of s in
  let expo := "e+" ++ digits_of (n - 1) in
  match ds with
  | String d EmptyString => ds ++ expo
  | String d r => String d ("." ++ r) ++ expo
  | EmptyString => expo
  end.

Definition toFixed (f : nat) (x : number) : string :=
  match x with
  | S754_nan => "NaN"
  | S754_infinity s => if s then "-Infinity" else "Infinity"
  | S754_zero _ => fixed_point f 0
  | S754_finite s m e =>
      (if s then "-" else EmptyString) ++
      (if at_least_1e21 m e then toString_large m e
       else fixed_point f (scaled_nearest m e f))
  end.

End JS.

(** ** The JavaScript runtime: regular expressions

    The fragment of the pattern language the component uses: character
    classes, concatenation, alternation (for [?]) and [*].  [test] is the
    anchored match [/^r$/.test(s)]; without the [m] flag, [$] matches at the
    end of the input only.  Matching is by derivatives. *)

Module Regex.

Inductive regex : Type :=
| Void : regex
| Eps : regex
| Class : (ascii -> bool) -> regex
| Seq : regex -> regex -> regex
| Alt : regex -> regex -> regex
| Star : regex -> regex.

Definition Opt (r : regex) : regex := Alt r Eps.

Fixpoint nullable (r : regex) : bool :=
  match r with
  | Void => false
  | Eps => true
  | Class _ => false
  | Seq r1 r2 => nullable r1 && nullable r2
  | Alt r1 r2 => nullable r1 || nullable r2
  | Star _ => true
  end.

Fixpoint deriv (c : ascii) (r : regex) : regex :=
  match r with
  | Void => Void
  | Eps => Void
  | Class p => if p c then Eps else Void
  | Seq r1 r2 =>
      if nullable r1
      then Alt (Seq (deriv c r1) r2) (deriv c r2)
      else Seq (deriv c r1) r2
  | Alt r1 r2 => Alt (deriv c r1) (deriv c r2)
  | Star r1 => Seq (deriv c r1) (Star r1)
  end.

Fixpoint test (r : regex) (s : string) : bool :=
  match s with
  | EmptyString => nullable r
  | String c t => test (deriv c r) t
  end.

(** The language of a pattern. *)
Inductive lang : regex -> string -> Prop :=
| lang_eps : lang Eps EmptyString
| lang_class p c : p c = true -> lang (Class p) (String c EmptyString)
| lang_seq r1 r2 s1 s2 : lang r1 s1 -> lang r2 s2 -> lang (Seq r1 r2) (s1 ++ s2)
| lang_alt_l r1 r2 s : lang r1 s -> lang (Alt r1 r2) s
| lang_alt_r r1 r2 s : lang r2 s -> lang (Alt r1 r2) s
| lang_star_nil r : lang (Star r) EmptyString
| lang_star_cons r s1 s2 :
    lang r s1 -> lang (Star r) s2 -> lang (Star r) (s1 ++ s2).

(** [\d] and [\.] *)
Definition digit : regex := Class Chars.is_digit.
Definition dot : regex := Class (fun c => Ascii.eqb c ".").

End Regex.

(** ** The JavaScript runtime: [Map]

    A [Map] keeps its entries in insertion order, and [set] on a key that is
    present replaces the value where the entry stands. *)

Module JSMap.
Section WithValue.
Context {V : Type}.

Definition t : Type := list (string * V).

Definition empty : t := [].

Fixpoint get (k : string) (m : t) : option V :=
  match m with
  | [] => None
  | (k', v) :: r => if String.eqb k k' then Some v else get k r
  end.

Fixpoint set (k : string) (v : V) (m : t) : t :=
  match m with
  | [] => [(k, v)]
  | (k', v') :: r =>
      if String.eqb k k' then (k, v) :: r else (k', v') :: set k v r
  end.

Definition entries (m : t) : list (string * V) := m.

Definition keys (m : t) : list string := map fst m.
End WithValue.
Arguments t : clear implicits.
End JSMap.

(** ** The component: data *)

Import JS.

Record RawCryptoData : Type :=
  { currency : string; date : string; price : number }.

Record CryptoCurrency : Type :=
  { code : string; name : string; priceInUSD : number }.

Definition MAX_AMOUNT : number := of_Z 1000000000000.

(** The cells of the component: one field per [useState], and the current
    value of the [useRef] cell [toCurrencyError]. *)
Record State : Type :=
  { amountToSend : string;
    fromCurrency : option CryptoCurrency;
    toCurrency : option CryptoCurrency;
    amountToReceive : string;
    exchangeRate : number;
    isSwapping : bool;
    allCryptoCurrencies : list CryptoCurrency;
    cryptoPricesInUSD : JSMap.t number;
    isLoading : bool;
    fetchError : option string;
    amountError : string;
    fromCurrencyError : string;
    toCurrencyError : string }.

(** The state of the first render. *)
Definition initial : State :=
  {| amountToSend := "100";
     fromCurrency := None;
     toCurrency := None;
     amountToReceive := "0.00";
     exchangeRate := zero;
     isSwapping := false;
     allCryptoCurrencies := [];
     cryptoPricesInUSD := JSMap.empty;
     isLoading := true;
     fetchError := None;
     amountError := EmptyString;
     fromCurrencyError := EmptyString;
     toCurrencyError := EmptyString |}.

(** ** Writes

    A callback reads the cells of the render that created it (its argument
    [r]) and issues writes; [M] threads the writes. *)

Definition M (A : Type) : Type := State -> A * State.

Definition ret {A : Type} (a : A) : M A := fun s => (a, s).

Definition bind {A B : Type} (c : M A) (k : A -> M B) : M B :=
  fun s => let '(a, s') := c s in k a s'.

Definition write (f : State -> State) : M unit := fun s => (tt, f s).

Definition exec {A : Type} (c : M A) (s : State) : State := snd (c s).
Definition eval {A : Type} (c : M A) (s : State) : A := fst (c s).

Declare Scope action_scope.
Delimit Scope action_scope with action.
Notation "x <- c ;; k" := (bind c (fun x => k))
  (at level 61, c at next level, right associativity) : action_scope.
Notation "c ;; k" := (bind c (fun _ => k))
  (at level 61, right associativity) : action_scope.
Local Open Scope action_scope.

Definition setAmountToSend (v : string) : M unit :=
  write (fun s =>
    {| amountToSend := v; fromCurrency := fromCurrency s;
       toCurrency := toCurrency s; amountToReceive := amountToReceive s;
       exchangeRate := exchangeRate s; isSwapping := isSwapping s;
       allCryptoCurrencies := allCryptoCurrencies s;
       cryptoPricesInUSD := cryptoPricesInUSD s; isLoading := isLoading s;
       fetchError := fetchError s; amountError := amountError s;
       fromCurrencyError := fromCurrencyError s;
       toCurrencyError := toCurrencyError s |}).

Definition setFromCurrency (v : option CryptoCurrency) : M unit :=
  write (fun s =>
    {| amountToSend := amountToSend s; fromCurrency := v;
       toCurrency := toCurrency s; amountToReceive := amountToReceive s;
       exchangeRate := exchangeRate s; isSwapping := isSwapping s;
       allCryptoCurrencies := allCryptoCurrencies s;
       cryptoPricesInUSD := cryptoPricesInUSD s; isLoading := isLoading s;
       fetchError := fetchError s; amountError := amountError s;
       fromCurrencyError := fromCurrencyError s;
       toCurrencyError := toCurrencyError s |}).

Definition setToCurrency (v : option CryptoCurrency) : M unit :=
  write (fun s =>
    {| amountToSend := amountToSend s; fromCurrency := fromCurrency s;
       toCurrency := v; amountToReceive := amountToReceive s;
       exchangeRate := exchangeRate s; isSwapping := isSwapping s;
       allCryptoCurrencies := allCryptoCurrencies s;
       cryptoPricesInUSD := cryptoPricesInUSD s; isLoading := isLoading s;
       fetchError := fetchError s; amountError := amountError s;
       fromCurrencyError := fromCurrencyError s;
       toCurrencyError := toCurrencyError s |}).

Definition setAmountToReceive (v : string) : M unit :=
  write (fun s =>
    {| amountToSend := amountToSend s; fromCurrency := fromCurrency s;
       toCurrency := toCurrency s; amountToReceive := v;
       exchangeRate := exchangeRate s; isSwapping := isSwapping s;
       allCryptoCurrencies := allCryptoCurrencies s;
       cryptoPricesInUSD := cryptoPricesInUSD s; isLoading := isLoading s;
       fetchError := fetchError s; amountError := amountError s;
       fromCurrencyError := fromCurrencyError s;
       toCurrencyError := toCurrencyError s |}).

Definition setExchangeRate (v : number) : M unit :=
  write (fun s =>
    {| amountToSend := amountToSend s; fromCurrency := fromCurrency s;
       toCurrency := toCurrency s; amountToReceive := amountToReceive s;
       exchangeRate := v; isSwapping := isSwapping s;
       allCryptoCurrencies := allCryptoCurrencies s;
       cryptoPricesInUSD := cryptoPricesInUSD s; isLoading := isLoading s;
       fetchError := fetchError s; amountError := amountError s;
       fromCurrencyError := fromCurrencyError s;
       toCurrencyError := toCurrencyError s |}).

Definition setIsSwapping (v : bool) : M unit :=
  write (fun s =>
    {| amountToSend := amountToSend s; fromCurrency := fromCurrency s;
       toCurrency := toCurrency s; amountToReceive := amountToReceive s;
       exchangeRate := exchangeRate s; isSwapping := v;
       allCryptoCurrencies := allCryptoCurrencies s;
       cryptoPricesInUSD := cryptoPricesInUSD s; isLoading := isLoading s;
       fetchError := fetchError s; amountError := amountError s;
       fromCurrencyError := fromCurrencyError s;
       toCurrencyError := toCurrencyError s |}).

Definition setAllCryptoCurrencies (v : list CryptoCurrency) : M unit :=
  write (fun s =>
    {| amountToSend := amountToSend s; fromCurrency := fromCurrency s;
       toCurrency := toCurrency s; amountToReceive := amountToReceive s;
       exchangeRate := exchangeRate s; isSwapping := isSwapping s;
       allCryptoCurrencies := v;
       cryptoPricesInUSD := cryptoPricesInUSD s; isLoading := isLoading s;
       fetchError := fetchError s; amountError := amountError s;
       fromCurrencyError := fromCurrencyError s;
       toCurrencyError := toCurrencyError s |}).

Definition setCryptoPricesInUSD (v : JSMap.t number) : M unit :=
  write (fun s =>
    {| amountToSend := amountToSend s; fromCurrency := fromCurrency s;
       toCurrency := toCurrency s; amountToReceive := amountToReceive s;
       exchangeRate := exchangeRate s; isSwapping := isSwapping s;
       allCryptoCurrencies := allCryptoCurrencies s;
       cryptoPricesInUSD := v; isLoading := isLoading s;
       fetchError := fetchError s; amountError := amountError s;
       fromCurrencyError := fromCurrencyError s;
       toCurrencyError := toCurrencyError s |}).

Definition setIsLoading (v : bool) : M unit :=
  write (fun s =>
    {| amountToSend := amountToSend s; fromCurrency := fromCurrency s;
       toCurrency := toCurrency s; amountToReceive := amountToReceive s;
       exchangeRate := exchangeRate s; isSwapping := isSwapping s;
       allCryptoCurrencies := allCryptoCurrencies s;
       cryptoPricesInUSD := cryptoPricesInUSD s; isLoading := v;
       fetchError := fetchError s; amountError := amountError s;
       fromCurrencyError := fromCurrencyError s;
       toCurrencyError := toCurrencyError s |}).

Definition setFetchError (v : option string) : M unit :=
  write (fun s =>
    {| amountToSend := amountToSend s; fromCurrency := fromCurrency s;
       toCurrency := toCurrency s; amountToReceive := amountToReceive s;
       exchangeRate := exchangeRate s; isSwapping := isSwapping s;
       allCryptoCurrencies := allCryptoCurrencies s;
       cryptoPricesInUSD := cryptoPricesInUSD s; isLoading := isLoading s;
       fetchError := v; amountError := amountError s;
       fromCurrencyError := fromCurrencyError s;
       toCurrencyError := toCurrencyError s |}).

Definition setAmountError (v : string) : M unit :=
  write (fun s =>
    {| amountToSend := amountToSend s; fromCurrency := fromCurrency s;
       toCurrency := toCurrency s; amountToReceive := amountToReceive s;
       exchangeRate := exchangeRate s; isSwapping := isSwapping s;
       allCryptoCurrencies := allCryptoCurrencies s;
       cryptoPricesInUSD := cryptoPricesInUSD s; isLoading := isLoading s;
       fetchError := fetchError s; amountError := v;
       fromCurrencyError := fromCurrencyError s;
       toCurrencyError := toCurrencyError s |}).

Definition setFromCurrencyError (v : string) : M unit :=
  write (fun s =>
    {| amountToSend := amountToSend s; fromCurrency := fromCurrency s;
       toCurrency := toCurrency s; amountToReceive := amountToReceive s;
       exchangeRate := exchangeRate s; isSwapping := isSwapping s;
       allCryptoCurrencies := allCryptoCurrencies s;
       cryptoPricesInUSD := cryptoPricesInUSD s; isLoading := isLoading s;
       fetchError := fetchError s; amountError := amountError s;
       fromCurrencyError := v;
       toCurrencyError := toCurrencyError s |}).

(** [toCurrencyError.current = v] *)
Definition setToCurrencyErrorCurrent (v : string) : M unit :=
  write (fun s =>
    {| amountToSend := amountToSend s; fromCurrency := fromCurrency s;
       toCurrency := toCurrency s; amountToReceive := amountToReceive s;
       exchangeRate := exchangeRate s; isSwapping := isSwapping s;
       allCryptoCurrencies := allCryptoCurrencies s;
       cryptoPricesInUSD := cryptoPricesInUSD s; isLoading := isLoading s;
       fetchError := fetchError s; amountError := amountError s;
       fromCurrencyError := fromCurrencyError s;
       toCurrencyError := v |}).

(** ** The component: callbacks *)

(** *** Price loader: the body of [fetchCryptoData] after the request *)

(** [rawData.forEach(data => { if (data.price > 0) pricesMap.set(...) })] *)
Definition pricesMap_of (rawData : list RawCryptoData) : JSMap.t number :=
  fold_left
    (fun pricesMap data =>
       if gt (price data) zero
       then JSMap.set (currency data) (price data) pricesMap
       else pricesMap)
    rawData JSMap.empty.

(** [Array.from(pricesMap.entries()).map(([code, price]) => ...)] *)
Definition processed_of (pricesMap : JSMap.t number) : list CryptoCurrency :=
  map (fun entry =>
         {| code := fst entry; name := fst entry; priceInUSD := snd entry |})
      (JSMap.entries pricesMap).

(** The request either yields the records ([Some rawData]) or fails. *)
Definition fetchCryptoData (response : option (list RawCryptoData)) : M unit :=
  setIsLoading true ;;
  match response with
  | Some rawData =>
      let pricesMap := pricesMap_of rawData in
      let processed := processed_of pricesMap in
      setAllCryptoCurrencies processed ;;
      setCryptoPricesInUSD pricesMap ;;
      match processed with
      | [] => ret tt
      | first :: rest =>
          setFromCurrency (Some first) ;;
          match rest with
          | [] => ret tt
          | second :: _ => setToCurrency (Some second)
          end
      end
  | None =>
      setFetchError
        (Some "Failed to load cryptocurrency prices. Please try again later.")
  end ;;
  setIsLoading false.

(** *** Swap calculator *)

Definition calculateAmountToReceive (r : State) : M unit :=
  let amount := parseFloat (amountToSend r) in
  let reset := setAmountToReceive "0.00" ;; setExchangeRate zero in
  match fromCurrency r, toCurrency r with
  | Some from, Some to =>
      if gt amount zero && le amount MAX_AMOUNT
         && negb (String.eqb (code from) (code to))
      then
        let fromPrice := JSMap.get (code from) (cryptoPricesInUSD r) in
        let toPrice := JSMap.get (code to) (cryptoPricesInUSD r) in
        match fromPrice, toPrice with
        | Some fromPrice, Some toPrice =>
            if truthy fromPrice && truthy toPrice then
              let rate := div toPrice fromPrice in
              setExchangeRate rate ;;
              setAmountToReceive (toFixed 8 (mul amount rate))
            else reset
        | _, _ => reset
        end
      else reset
  | _, _ => reset
  end.

(** *** Handlers that need nothing of the host *)

Definition amount_pattern : Regex.regex :=
  Regex.Seq (Regex.Star Regex.digit)
            (Regex.Seq (Regex.Opt Regex.dot) (Regex.Star Regex.digit)).

Definition handleAmountChange (value : string) : M unit :=
  if Regex.test amount_pattern value || String.eqb value EmptyString
  then setAmountToSend value
  else ret tt.

Definition handleClearAmount : M unit :=
  setAmountToSend "0" ;; setAmountError EmptyString.

Definition handleFromCurrencyChange (newValue : option CryptoCurrency) : M unit :=
  setFromCurrency newValue.

Definition handleToCurrencyChange (newValue : option CryptoCurrency) : M unit :=
  setToCurrency newValue.

Definition handleSwapCurrencies (r : State) : M unit :=
  let temp := fromCurrency r in
  setFromCurrency (toCurrency r) ;;
  setToCurrency temp.

Definition is_empty (s : string) : bool := String.eqb s EmptyString.

Definition is_some {A : Type} (o : option A) : bool :=
  match o with Some _ => true | None => false end.

Definition isFormValid (r : State) : bool :=
  match fromCurrency r, toCurrency r with
  | Some from, Some to =>
      negb (String.eqb (code from) (code to))
      && gt (parseFloat (amountToSend r)) zero
      && le (parseFloat (amountToSend r)) MAX_AMOUNT
      && is_empty (amountError r)
      && is_empty (fromCurrencyError r)
      && is_empty (toCurrencyError r)
  | _, _ => false
  end.

(** The two "required" messages carry double quotes around the field. *)
Definition dquote : string := String (ascii_of_nat 34) EmptyString.

Definition select_from_message : string :=
  "Please select a " ++ dquote ++ "From" ++ dquote ++ " currency.".

Definition select_to_message : string :=
  "Please select a " ++ dquote ++ "To" ++ dquote ++ " currency.".

Section Host.

(** [Number.prototype.toLocaleString] formats by the locale of the host. *)
Variable toLocaleString : number -> string.

(** *** Form validator *)

Definition ceiling_message : string :=
  "Amount cannot exceed " ++ toLocaleString MAX_AMOUNT ++ ".".

Definition validate_amount (r : State) (isValid : bool) : M bool :=
  let amount := parseFloat (amountToSend r) in
  if String.eqb (amountToSend r) EmptyString then
    setAmountError "Amount is required." ;; ret false
  else if isNaN amount || le amount zero then
    setAmountError "Please enter a positive amount." ;; ret false
  else if gt amount MAX_AMOUNT then
    setAmountError ceiling_message ;; ret false
  else
    setAmountError EmptyString ;; ret isValid.

Definition validate_from (r : State) (isValid : bool) : M bool :=
  match fromCurrency r with
  | None =>
      setFromCurrencyError select_from_message ;; ret false
  | Some _ => setFromCurrencyError EmptyString ;; ret isValid
  end.

Definition validate_to (r : State) (isValid : bool) : M bool :=
  match toCurrency r with
  | None =>
      setToCurrencyErrorCurrent select_to_message ;;
      ret false
  | Some _ => setToCurrencyErrorCurrent EmptyString ;; ret isValid
  end.

Definition validate_distinct (r : State) (isValid : bool) : M bool :=
  match fromCurrency r, toCurrency r with
  | Some from, Some to =>
      if String.eqb (code from) (code to) then
        setFromCurrencyError "Currencies cannot be the same." ;;
        setToCurrencyErrorCurrent "Currencies cannot be the same." ;;
        ret false
      else ret isValid
  | _, _ => ret isValid
  end.

Definition validateForm (r : State) : M bool :=
  isValid <- validate_amount r true ;;
  isValid <- validate_from r isValid ;;
  isValid <- validate_to r isValid ;;
  isValid <- validate_distinct r isValid ;;
  ret isValid.

(** The click on the submit button; the timer it starts is [SwapTimer]
    below. *)
Definition handleSwap (r : State) : M unit :=
  valid <- validateForm r ;;
  if valid then setIsSwapping true else ret tt.

(** *** Renders, effects, events *)

(** The two effects of a render, in the order of their declaration. *)
Definition effects (r : State) : State :=
  let calc :=
    if negb (isLoading r) && negb (is_some (fetchError r))
    then calculateAmountToReceive r
    else ret tt in
  exec (calc ;; validateForm r) r.

Inductive event : Type :=
| FetchResolved (rawData : list RawCryptoData)
| FetchRejected
| AmountChange (value : string)
| ClearAmount
| FromCurrencyChange (newValue : option CryptoCurrency)
| ToCurrencyChange (newValue : option CryptoCurrency)
| SwapCurrencies
| SwapClick
| SwapTimer.

Definition ready (r : State) : bool :=
  negb (isLoading r) && negb (is_some (fetchError r)).

(** What the render of [r] lets happen: the request is pending while
    [isLoading]; the form is on screen only when [ready]; the clear button
    needs a non-empty amount; the submit button is disabled unless
    [isFormValid] and not [isSwapping]. *)
Definition enabled (ev : event) (r : State) : bool :=
  match ev with
  | FetchResolved _ | FetchRejected => isLoading r
  | ClearAmount => ready r && negb (is_empty (amountToSend r))
  | SwapClick => ready r && isFormValid r && negb (isSwapping r)
  | SwapTimer => isSwapping r
  | _ => ready r
  end.

Definition handle (ev : event) (r : State) : M unit :=
  match ev with
  | FetchResolved rawData => fetchCryptoData (Some rawData)
  | FetchRejected => fetchCryptoData None
  | AmountChange value => handleAmountChange value
  | ClearAmount => handleClearAmount
  | FromCurrencyChange newValue => handleFromCurrencyChange newValue
  | ToCurrencyChange newValue => handleToCurrencyChange newValue
  | SwapCurrencies => handleSwapCurrencies r
  | SwapClick => handleSwap r
  | SwapTimer => setIsSwapping false
  end.

(** The render that follows the handler's writes, before its effects. *)
Definition render_after (ev : event) (r : State) : State :=
  exec (handle ev r) r.

(** An event the render lets happen, followed by the two effects.  The
    effects are run here after every handler.  The component runs an effect
    again only when one of its dependencies changed; the two coincide unless
    a handler writes a cell that an effect owns without changing a
    dependency, which only the clear button does, on an amount that is
    already "0".  A render reads the cell [toCurrencyError] as it is when
    some [useState] cell changed; a write to that cell alone is not seen by
    the values computed in the last render. *)
Definition dispatch (r : State) (ev : event) : State :=
  if enabled ev r then effects (render_after ev r) else r.

Definition mounted : State := effects initial.

Definition run_from (r : State) (evs : list event) : State :=
  fold_left dispatch evs r.

Definition run_events (evs : list event) : State := run_from mounted evs.

End Host.

(** ** What the specification says, as definitions *)

(** The amount parses to a number in the interval (0, 10^12]. *)
Definition amount_in_range (a : number) : bool :=
  gt a zero && le a MAX_AMOUNT.

(** Digits with at most one decimal point: nothing but digits and points,
    and no second point. *)
Fixpoint only_digits_and_points (s : string) : bool :=
  match s with
  | EmptyString => true
  | String c r =>
      (Chars.is_digit c || Ascii.eqb c ".") && only_digits_and_points r
  end.

Fixpoint count_points (s : string) : nat :=
  match s with
  | EmptyString => O
  | String c r => ((if Ascii.eqb c "." then 1 else 0) + count_points r)%nat
  end.

Definition digits_one_point (s : string) : bool :=
  only_digits_and_points s && (count_points s <=? 1)%nat.

(** ** The callbacks in closed form

    What a run of the validator and of the calculator writes, as functions
    of the cells they read; [validateForm_run] and
    [calculateAmountToReceive_run] below prove that the callbacks write
    exactly this. *)

Definition with_errors (a f t : string) (s : State) : State :=
  {| amountToSend := amountToSend s; fromCurrency := fromCurrency s;
     toCurrency := toCurrency s; amountToReceive := amountToReceive s;
     exchangeRate := exchangeRate s; isSwapping := isSwapping s;
     allCryptoCurrencies := allCryptoCurrencies s;
     cryptoPricesInUSD := cryptoPricesInUSD s; isLoading := isLoading s;
     fetchError := fetchError s; amountError := a;
     fromCurrencyError := f; toCurrencyError := t |}.

Definition with_result (receive : string) (rate : number) (s : State) : State :=
  {| amountToSend := amountToSend s; fromCurrency := fromCurrency s;
     toCurrency := toCurrency s; amountToReceive := receive;
     exchangeRate := rate; isSwapping := isSwapping s;
     allCryptoCurrencies := allCryptoCurrencies s;
     cryptoPricesInUSD := cryptoPricesInUSD s; isLoading := isLoading s;
     fetchError := fetchError s; amountError := amountError s;
     fromCurrencyError := fromCurrencyError s;
     toCurrencyError := toCurrencyError s |}.

Definition same_code (from to : option CryptoCurrency) : bool :=
  match from, to with
  | Some f, Some t => String.eqb (code f) (code t)
  | _, _ => false
  end.

Definition amount_error_of (toLocaleString : number -> string) (value : string)
  : string :=
  let a := parseFloat value in
  if String.eqb value EmptyString then "Amount is required."
  else if isNaN a || le a zero then "Please enter a positive amount."
  else if gt a MAX_AMOUNT then ceiling_message toLocaleString
  else EmptyString.

Definition from_error_of (from to : option CryptoCurrency) : string :=
  if same_code from to then "Currencies cannot be the same."
  else if is_some from then EmptyString else select_from_message.

Definition to_error_of (from to : option CryptoCurrency) : string :=
  if same_code from to then "Currencies cannot be the same."
  else if is_some to then EmptyString else select_to_message.

Definition amount_ok (value : string) : bool :=
  let a := parseFloat value in
  negb (String.eqb value EmptyString)
  && negb (isNaN a || le a zero)
  && negb (gt a MAX_AMOUNT).

Definition verdict_of (r : State) : bool :=
  amount_ok (amountToSend r)
  && is_some (fromCurrency r) && is_some (toCurrency r)
  && negb (same_code (fromCurrency r) (toCurrency r)).

(** The price under which the calculator converts from [c]: the entry of the
    map, when there is one and it is truthy. *)
Definition usable_price (prices : JSMap.t number) (c : CryptoCurrency)
  : option number :=
  match JSMap.get (code c) prices with
  | Some p => if truthy p then Some p else None
  | None => None
  end.

Definition result_of (r : State) : string * number :=
  match fromCurrency r, toCurrency r with
  | Some from, Some to =>
      if amount_in_range (parseFloat (amountToSend r))
         && negb (String.eqb (code from) (code to))
      then
        match usable_price (cryptoPricesInUSD r) from,
              usable_price (cryptoPricesInUSD r) to with
        | Some fromPrice, Some toPrice =>
            (toFixed 8 (mul (parseFloat (amountToSend r)) (div toPrice fromPrice)),
             div toPrice fromPrice)
        | _, _ => ("0.00", zero)
        end
      else ("0.00", zero)
  | _, _ => ("0.00", zero)
  end.

(** Two runs of digits, with or without a point between them. *)
Definition two_digit_runs (s : string) : Prop :=
  exists d1 d2,
    Chars.all_digits d1 = true /\ Chars.all_digits d2 = true
    /\ (s = (d1 ++ d2)%string \/ s = (d1 ++ String "." d2)%string).

(** The error cells hold what the validator writes for the amount and the
    currencies of the same state. *)
Definition settled (toLocaleString : number -> string) (r : State) : Prop :=
  amountError r = amount_error_of toLocaleString (amountToSend r)
  /\ fromCurrencyError r = from_error_of (fromCurrency r) (toCurrency r)
  /\ toCurrencyError r = to_error_of (fromCurrency r) (toCurrency r).

(** ** Sample data *)

(** [toLocaleString] of the [en-US] locale on the one number the component
    formats, the ceiling. *)
Definition en_US (x : number) : string := "1,000,000,000,000".

Definition quote (c p : string) : RawCryptoData :=
  {| currency := c; date := "2023-08-29T07:10:52.000Z"; price := parseFloat p |}.

Definition coin (c p : string) : CryptoCurrency :=
  {| code := c; name := c; priceInUSD := parseFloat p |}.

Definition btc_eth_feed : list RawCryptoData :=
  [quote "BTC" "50000"; quote "ETH" "2500"].

(** The render that follows typing "5" into an emptied amount field, before
    its effects have run: the amount error is still the one of the empty
    field. *)
Definition render_with_stale_error : State :=
  render_after en_US (AmountChange "5")
    (run_events en_US [FetchResolved btc_eth_feed; AmountChange EmptyString]).

(** The price of the last record of the feed that carries the code [c]. *)
Fixpoint last_seen_price (c : string) (rawData : list RawCryptoData)
  : option number :=
  match rawData with
  | [] => None
  | d :: rest =>
      match last_seen_price c rest with
      | Some p => Some p
      | None => if String.eqb (currency d) c then Some (price d) else None
      end
  end.

(** The same among the records with a positive price. *)
Fixpoint last_positive_price (c : string) (rawData : list RawCryptoData)
  : option number :=
  match rawData with
  | [] => None
  | d :: rest =>
      match last_positive_price c rest with
      | Some p => Some p
      | None =>
          if String.eqb (currency d) c && gt (price d) zero
          then Some (price d) else None
      end
  end.

(** "Last-seen price wins", read over all the records of the feed. *)
Definition last_seen_wins (rawData : list RawCryptoData) : Prop :=
  forall c p,
    JSMap.get c (pricesMap_of rawData) = Some p ->
    last_seen_price c rawData = Some p.

(** A feed whose last quote for BTC carries no price. *)
Definition feed_with_unpriced_repeat : list RawCryptoData :=
  [quote "BTC" "50000"; quote "ETH" "2500"; quote "BTC" "0"].

(** ** Fixed notation

    [s] writes the fraction [n / 10^f] with exactly [f] decimal places:
    digits, a point, [f] digits, and the digits read together are [n]. *)
Definition fixed_notation (f : nat) (n : Z) (s : string) : Prop :=
  exists int_part frac_part,
    s = (int_part ++ String "." frac_part)%string
    /\ int_part <> EmptyString
    /\ Chars.all_digits int_part = true
    /\ Chars.all_digits frac_part = true
    /\ length frac_part = f
    /\ Chars.digits_value 0 (int_part ++ frac_part) = n.

(** The magnitude of a finite number is below 10^21. *)
Definition below_1e21 (x : number) : bool :=
  match x with
  | S754_zero _ => true
  | S754_finite _ m e => negb (at_least_1e21 m e)
  | _ => false
  end.

(** [n] is the integer nearest to [|x| * 10^f], the larger one on a tie:
    [n <= |x| * 10^f + 1/2 < n + 1], with [|x| = m * 2^e] and the
    denominators cleared. *)
Definition nearest_scaled (f : nat) (x : number) (n : Z) : Prop :=
  match x with
  | S754_zero _ => n = 0
  | S754_finite _ m e =>
      let num := Zpos m * 10 ^ Z.of_nat f * 2 ^ Z.max 0 e in
      let den := 2 ^ Z.max 0 (- e) in
      2 * n * den <= 2 * num + den /\ 2 * num + den < 2 * (n + 1) * den
  | _ => False
  end.

(** The sign bit of [x] is clear, or [x] is [NaN]. *)
Definition not_negative (x : number) : bool :=
  match x with
  | S754_zero s | S754_infinity s | S754_finite s _ _ => negb s
  | S754_nan => true
  end.

(** ** The calculator's preconditions *)

(** Both currencies are selected, their codes differ, and the map holds a
    positive price for each. *)
Definition convertible (r : State) : Prop :=
  exists from to fromPrice toPrice,
    fromCurrency r = Some from /\ toCurrency r = Some to
    /\ code from <> code to
    /\ JSMap.get (code from) (cryptoPricesInUSD r) = Some fromPrice
    /\ gt fromPrice zero = true
    /\ JSMap.get (code to) (cryptoPricesInUSD r) = Some toPrice
    /\ gt toPrice zero = true.

(** [priceOf(to) / priceOf(from)], when both prices are known. *)
Definition price_ratio (r : State) : option number :=
  match fromCurrency r, toCurrency r with
  | Some from, Some to =>
      match JSMap.get (code from) (cryptoPricesInUSD r),
            JSMap.get (code to) (cryptoPricesInUSD r) with
      | Some fromPrice, Some toPrice => Some (div toPrice fromPrice)
      | _, _ => None
      end
  | _, _ => None
  end.

(** The invariant of the data model, with no condition on the amount. *)
Definition rate_invariant_as_stated (r : State) : Prop :=
  (convertible r -> Some (exchangeRate r) = price_ratio r)
  /\ (~ convertible r ->
      exchangeRate r = zero /\ amountToReceive r = "0.00").

(** The same, the amount being part of the condition. *)
Definition rate_invariant (r : State) : Prop :=
  let ok :=
    convertible r /\ amount_in_range (parseFloat (amountToSend r)) = true in
  (ok -> Some (exchangeRate r) = price_ratio r)
  /\ (~ ok -> exchangeRate r = zero /\ amountToReceive r = "0.00").

(** Some precondition of the calculator fails. *)
Definition precondition_fails (r : State) : Prop :=
  amount_in_range (parseFloat (amountToSend r)) = false
  \/ fromCurrency r = None
  \/ toCurrency r = None
  \/ same_code (fromCurrency r) (toCurrency r) = true
  \/ (exists from,
         fromCurrency r = Some from
         /\ forall p, JSMap.get (code from) (cryptoPricesInUSD r) = Some p ->
                      gt p zero = false)
  \/ (exists to,
         toCurrency r = Some to
         /\ forall p, JSMap.get (code to) (cryptoPricesInUSD r) = Some p ->
                      gt p zero = false).

(** What holds of every state the component settles in: once the prices
    are loaded the result cells are those of the calculator on the same
    state, and before that nothing is selected and the result cells are the
    initial ones; the price map is one the loader built. *)
Definition consistent (r : State) : Prop :=
  (ready r = true -> (amountToReceive r, exchangeRate r) = result_of r)
  /\ (ready r = false ->
      amountToReceive r = "0.00" /\ exchangeRate r = zero
      /\ fromCurrency r = None /\ toCurrency r = None)
  /\ (isLoading r = true -> fetchError r = None)
  /\ (exists rawData, cryptoPricesInUSD r = pricesMap_of rawData).

(** BTC to ETH with the amount cleared to "0". *)
Definition cleared_amount_state : State :=
  run_events en_US [FetchResolved btc_eth_feed; ClearAmount].

(** 2 BTC to ETH at 50000 and 2500 USD. *)
Definition two_btc_state : State :=
  run_events en_US [FetchResolved btc_eth_feed; AmountChange "2"].

(** The ceiling amount of a token worth 0.00001 USD, to BTC at 100000 USD. *)
Definition large_swap_state : State :=
  run_events en_US
    [FetchResolved [quote "SHIB" "0.00001"; quote "BTC" "100000"];
     AmountChange "1000000000000"].


(** ** The component: what is rendered

    The three [return]s of the component, the line under the two pickers
    that shows the rate, the message of the notification that [handleSwap]
    schedules, and the address of a currency's icon
    ([src/src/components/DynamicCryptoIcon.tsx]). *)

Inductive screen : Type :=
| LoadingScreen
| ErrorScreen (message : string)
| FormScreen.

(** [if (isLoading) return ...; if (fetchError) return ...; return ...]:
    an empty message is falsy. *)
Definition view (r : State) : screen :=
  if isLoading r then LoadingScreen
  else
    match fetchError r with
    | Some message =>
        if is_empty message then FormScreen else ErrorScreen message
    | None => FormScreen
    end.

(** The line [1 {from} = {rate} {to}], when the form shows it. *)
Definition rate_line (r : State) : option string :=
  match fromCurrency r, toCurrency r with
  | Some from, Some to =>
      if gt (exchangeRate r) zero && negb (String.eqb (code from) (code to))
      then Some ("1 " ++ code from ++ " = " ++ toFixed 8 (exchangeRate r)
                 ++ " " ++ code to)%string
      else None
  | _, _ => None
  end.

(** [${currency?.code}] in a template literal. *)
Definition code_or_undefined (c : option CryptoCurrency) : string :=
  match c with
  | Some x => code x
  | None => "undefined"
  end.

(** The message of the notification, built from the cells of the render in
    which the button was clicked. *)
Definition success_message (r : State) : string :=
  ("Successfully swapped  " ++ amountToSend r ++ " "
   ++ code_or_undefined (fromCurrency r) ++ " for " ++ amountToReceive r
   ++ " " ++ code_or_undefined (toCurrency r))%string.

(** The notification that a click schedules: none when [validateForm]
    rejects the form. *)
Definition scheduled_toast (toLocaleString : number -> string) (r : State)
  : option string :=
  if eval (validateForm toLocaleString r) r
  then Some (success_message r)
  else None.

(** The address the icon of a currency is first loaded from, and the one it
    is replaced with when loading fails. *)
Definition icon_src (code : string) : string :=
  ("/tokens/" ++ code ++ ".svg")%string.

Definition icon_fallback : string := "/tokens/default.svg".

(** The first character of a string is a digit; is the minus sign. *)
Definition head_is_digit (s : string) : bool :=
  match s with
  | String c _ => Chars.is_digit c
  | EmptyString => false
  end.

Definition starts_with_minus (s : string) : bool :=
  match s with
  | String c _ => Ascii.eqb c "-"
  | EmptyString => false
  end.

(** A string holds a digit somewhere. *)
Fixpoint has_digit (s : string) : bool :=
  match s with
  | EmptyString => false
  | String c r => Chars.is_digit c || has_digit r
  end.


(** * Facts about the runtime model *)

(** ** Numbers: the relational operators *)

Lemma SFcompare_antisym (x y : number) :
  SFcompare y x = option_map CompOpp (SFcompare x y).
Proof.
  destruct x as [sx|sx| |sx mx ex], y as [sy|sy| |sy my ey]; simpl;
    try destruct sx; try destruct sy; try reflexivity.
  - rewrite (Z.compare_antisym ex ey).
    destruct (ex ?= ey); simpl; try reflexivity.
    pose proof (Pos.compare_antisym mx my) as H. unfold Pos.compare in H.
    now rewrite H.
  - rewrite (Z.compare_antisym ex ey).
    destruct (ex ?= ey); simpl; try reflexivity.
    pose proof (Pos.compare_antisym mx my) as H. unfold Pos.compare in H.
    now rewrite H.
Qed.

Lemma gt_not_le (x y : number) : gt x y = true -> le x y = false.
Proof.
  unfold gt, le, SFltb, SFleb. rewrite (SFcompare_antisym x y).
  destruct (SFcompare x y) as [[]|]; simpl; congruence.
Qed.

Lemma le_not_gt (x y : number) : le x y = true -> gt x y = false.
Proof.
  unfold gt, le, SFltb, SFleb. rewrite (SFcompare_antisym x y).
  destruct (SFcompare x y) as [[]|]; simpl; congruence.
Qed.

Lemma not_le_gt (x y : number) :
  isNaN x = false -> isNaN y = false -> le x y = false -> gt x y = true.
Proof.
  unfold gt, le, SFltb, SFleb. rewrite (SFcompare_antisym x y).
  destruct (SFcompare x y) as [[]|] eqn:E; simpl; try congruence.
  destruct x, y; simpl in *; congruence.
Qed.

Lemma not_gt_le (x y : number) :
  isNaN x = false -> isNaN y = false -> gt x y = false -> le x y = true.
Proof.
  unfold gt, le, SFltb, SFleb. rewrite (SFcompare_antisym x y).
  destruct (SFcompare x y) as [[]|] eqn:E; simpl; try congruence.
  destruct x, y; simpl in *; congruence.
Qed.

Lemma gt_zero_truthy (x : number) : gt x zero = true -> truthy x = true.
Proof. destruct x as [s|s| |s m e]; simpl; try reflexivity; discriminate. Qed.

Lemma gt_not_NaN (x y : number) : gt x y = true -> isNaN x = false.
Proof. destruct x, y; simpl; try reflexivity; discriminate. Qed.

Lemma MAX_AMOUNT_value : MAX_AMOUNT = S754_finite false 8192000000000000 (-13).
Proof. reflexivity. Qed.

Lemma gt_MAX_gt_zero (a : number) : gt a MAX_AMOUNT = true -> gt a zero = true.
Proof.
  rewrite MAX_AMOUNT_value.
  destruct a as [s|s| |s m e]; simpl; try discriminate; destruct s;
    try reflexivity; discriminate.
Qed.

Lemma parseFloat_empty : parseFloat EmptyString = NaN.
Proof. reflexivity. Qed.

(** * The callbacks, run *)

Ltac unfold_actions :=
  unfold exec, eval, bind, ret, write,
    setAmountToSend, setFromCurrency, setToCurrency, setAmountToReceive,
    setExchangeRate, setIsSwapping, setAllCryptoCurrencies,
    setCryptoPricesInUSD, setIsLoading, setFetchError, setAmountError,
    setFromCurrencyError, setToCurrencyErrorCurrent in *.

Lemma validateForm_run (toLocaleString : number -> string) (r s : State) :
  validateForm toLocaleString r s =
  (verdict_of r,
   with_errors (amount_error_of toLocaleString (amountToSend r))
               (from_error_of (fromCurrency r) (toCurrency r))
               (to_error_of (fromCurrency r) (toCurrency r)) s).
Proof.
  unfold validateForm, validate_amount, validate_from, validate_to,
    validate_distinct, verdict_of, amount_ok, amount_error_of, from_error_of,
    to_error_of, same_code, with_errors.
  unfold_actions.
  destruct (String.eqb (amountToSend r) EmptyString);
    [| destruct (isNaN (parseFloat (amountToSend r))
                 || le (parseFloat (amountToSend r)) zero);
       [| destruct (gt (parseFloat (amountToSend r)) MAX_AMOUNT)]];
    destruct (fromCurrency r) as [from|], (toCurrency r) as [to|]; simpl;
    try destruct (String.eqb (code from) (code to)); reflexivity.
Qed.

Lemma calculateAmountToReceive_run (r s : State) :
  calculateAmountToReceive r s =
  (tt, with_result (fst (result_of r)) (snd (result_of r)) s).
Proof.
  unfold calculateAmountToReceive, result_of, usable_price, amount_in_range,
    with_result.
  unfold_actions.
  destruct (fromCurrency r) as [from|], (toCurrency r) as [to|];
    try reflexivity.
  destruct (gt (parseFloat (amountToSend r)) zero
            && le (parseFloat (amountToSend r)) MAX_AMOUNT
            && negb (String.eqb (code from) (code to))); try reflexivity.
  destruct (JSMap.get (code from) (cryptoPricesInUSD r)) as [fp|],
           (JSMap.get (code to) (cryptoPricesInUSD r)) as [tp|];
    simpl; try reflexivity;
    repeat match goal with
      | |- context [truthy ?p] => destruct (truthy p); simpl
      end; reflexivity.
Qed.

Lemma effects_run (toLocaleString : number -> string) (r : State) :
  effects toLocaleString r =
  with_errors (amount_error_of toLocaleString (amountToSend r))
              (from_error_of (fromCurrency r) (toCurrency r))
              (to_error_of (fromCurrency r) (toCurrency r))
              (if ready r
               then with_result (fst (result_of r)) (snd (result_of r)) r
               else r).
Proof.
  unfold effects, ready, exec, bind.
  destruct (negb (isLoading r) && negb (is_some (fetchError r))).
  - rewrite calculateAmountToReceive_run, validateForm_run. reflexivity.
  - unfold ret. rewrite validateForm_run. reflexivity.
Qed.

Lemma effects_settled (toLocaleString : number -> string) (r : State) :
  settled toLocaleString (effects toLocaleString r).
Proof.
  rewrite effects_run. unfold settled.
  destruct (ready r); simpl; repeat split; reflexivity.
Qed.

(** ** The two validity computations *)

Lemma amount_ok_in_range (value : string) :
  amount_ok value = amount_in_range (parseFloat value).
Proof.
  unfold amount_ok, amount_in_range.
  destruct (String.eqb_spec value EmptyString) as [->|_]; [reflexivity |].
  simpl. set (a := parseFloat value).
  destruct (isNaN a) eqn:En.
  - destruct a; try discriminate. reflexivity.
  - simpl. destruct (le a zero) eqn:Ez.
    + rewrite (le_not_gt _ _ Ez). reflexivity.
    + rewrite (not_le_gt a zero En eq_refl Ez). simpl.
      destruct (gt a MAX_AMOUNT) eqn:Em.
      * rewrite (gt_not_le _ _ Em). reflexivity.
      * rewrite (not_gt_le a MAX_AMOUNT En eq_refl Em). reflexivity.
Qed.

Lemma ceiling_message_not_empty (toLocaleString : number -> string) :
  is_empty (ceiling_message toLocaleString) = false.
Proof. reflexivity. Qed.

Lemma amount_error_empty (toLocaleString : number -> string) (value : string) :
  is_empty (amount_error_of toLocaleString value) = amount_ok value.
Proof.
  unfold amount_error_of, amount_ok.
  destruct (String.eqb value EmptyString); [reflexivity |].
  destruct (isNaN (parseFloat value) || le (parseFloat value) zero);
    [reflexivity |].
  destruct (gt (parseFloat value) MAX_AMOUNT); reflexivity.
Qed.

Lemma isFormValid_settled (toLocaleString : number -> string) (r : State) :
  settled toLocaleString r -> isFormValid r = verdict_of r.
Proof.
  intros (Ha & Hf & Ht). unfold isFormValid, verdict_of.
  rewrite Ha, Hf, Ht, amount_error_empty, (amount_ok_in_range (amountToSend r)).
  unfold amount_in_range, from_error_of, to_error_of, same_code.
  destruct (fromCurrency r) as [from|], (toCurrency r) as [to|]; simpl;
    try (now rewrite ?andb_false_r).
  destruct (String.eqb (code from) (code to)); simpl.
  - now rewrite ?andb_false_r.
  - rewrite !andb_true_r.
    destruct (gt (parseFloat (amountToSend r)) zero),
             (le (parseFloat (amountToSend r)) MAX_AMOUNT); reflexivity.
Qed.

Lemma isFormValid_verdict (r : State) :
  isFormValid r = true -> verdict_of r = true.
Proof.
  unfold isFormValid, verdict_of, same_code.
  rewrite (amount_ok_in_range (amountToSend r)). unfold amount_in_range.
  destruct (fromCurrency r) as [from|], (toCurrency r) as [to|];
    try discriminate.
  simpl.
  destruct (String.eqb (code from) (code to)); [discriminate |].
  destruct (gt (parseFloat (amountToSend r)) zero); [| discriminate].
  destruct (le (parseFloat (amountToSend r)) MAX_AMOUNT); [| discriminate].
  reflexivity.
Qed.

(** * The form validator *)

Lemma amountError_validateForm (toLocaleString : number -> string) (r s : State) :
  amountError (exec (validateForm toLocaleString r) s) =
  amount_error_of toLocaleString (amountToSend r).
Proof. unfold exec. rewrite validateForm_run. reflexivity. Qed.

(** C5.  For every amount string the validator writes into the amount error
    exactly "Amount is required." when the string is empty; "Please enter a
    positive amount." when it is not empty and parses to NaN or to a value
    <= 0; the ceiling message when it parses to a value > 10^12; and the
    empty string otherwise.  The four cases are exhaustive and pairwise
    exclusive: exactly one applies. *)
Theorem C5_amount_error_cases
  (toLocaleString : number -> string) (r s : State) :
  let value := amountToSend r in
  let a := parseFloat value in
  let err := amountError (exec (validateForm toLocaleString r) s) in
  let empty := value = EmptyString in
  let not_positive :=
    value <> EmptyString /\ (isNaN a = true \/ le a zero = true) in
  let too_large := value <> EmptyString /\ gt a MAX_AMOUNT = true in
  let fine :=
    value <> EmptyString /\ isNaN a = false /\ le a zero = false
    /\ gt a MAX_AMOUNT = false in
  (empty -> err = "Amount is required.")
  /\ (not_positive -> err = "Please enter a positive amount.")
  /\ (too_large -> err = ceiling_message toLocaleString)
  /\ (fine -> err = EmptyString)
  /\ (empty \/ not_positive \/ too_large \/ fine)
  /\ ~ (empty /\ not_positive) /\ ~ (empty /\ too_large) /\ ~ (empty /\ fine)
  /\ ~ (not_positive /\ too_large) /\ ~ (not_positive /\ fine)
  /\ ~ (too_large /\ fine).
Proof.
  intros value a err empty not_positive too_large fine.
  assert (Herr : err = amount_error_of toLocaleString value)
    by apply amountError_validateForm.
  assert (Hpos : gt a MAX_AMOUNT = true -> isNaN a = false /\ le a zero = false).
  { intros H. apply gt_MAX_gt_zero in H.
    split; [eapply gt_not_NaN | apply gt_not_le]; exact H. }
  unfold empty, not_positive, too_large, fine, amount_error_of in *.
  fold a in Herr.
  destruct (String.eqb_spec value EmptyString) as [E|E];
    [| destruct (isNaN a) eqn:En; simpl in Herr;
       [| destruct (le a zero) eqn:Ez;
          [| destruct (gt a MAX_AMOUNT) eqn:Em]]];
    repeat split; intros; intuition congruence.
Qed.

Lemma C5_amount_error_cases_witness :
  let r := exec (setAmountToSend "abc") initial in
  amountError (exec (validateForm en_US r) r)
  = "Please enter a positive amount.".
Proof.
  intros r. apply (proj1 (proj2 (C5_amount_error_cases en_US r r))).
  split; [discriminate | left; reflexivity].
Defined.

(** The validator on the amounts the specification lists. *)
Lemma validator_examples :
  let validated := fun value =>
    amountError (exec (validateForm en_US
                         (exec (setAmountToSend value) initial)) initial) in
  validated EmptyString = "Amount is required."
  /\ validated "abc" = "Please enter a positive amount."
  /\ validated "0" = "Please enter a positive amount."
  /\ validated "1e13" = "Amount cannot exceed 1,000,000,000,000."
  /\ validated "1000000000000" = EmptyString
  /\ validated "100" = EmptyString.
Proof. repeat split; reflexivity. Qed.

(** C6.  When both currencies are selected and their codes are equal, the
    presence checks first clear both currency errors, and the validator then
    overwrites both with "Currencies cannot be the same." and reports the
    form as invalid. *)
Theorem C6_same_currency_overrides
  (toLocaleString : number -> string) (r s : State) (from to : CryptoCurrency) :
  fromCurrency r = Some from ->
  toCurrency r = Some to ->
  code from = code to ->
  let presence :=
    (v <- validate_amount toLocaleString r true ;;
     v <- validate_from r v ;;
     validate_to r v)%action in
  fromCurrencyError (exec presence s) = EmptyString
  /\ toCurrencyError (exec presence s) = EmptyString
  /\ validateForm toLocaleString r s =
     validate_distinct r (eval presence s) (exec presence s)
  /\ fromCurrencyError (exec (validateForm toLocaleString r) s)
     = "Currencies cannot be the same."
  /\ toCurrencyError (exec (validateForm toLocaleString r) s)
     = "Currencies cannot be the same."
  /\ eval (validateForm toLocaleString r) s = false.
Proof.
  intros Hf Ht Hc presence.
  assert (Hpres : fromCurrencyError (exec presence s) = EmptyString
                  /\ toCurrencyError (exec presence s) = EmptyString).
  { unfold presence, validate_amount, validate_from, validate_to.
    rewrite Hf, Ht. unfold_actions.
    destruct (String.eqb (amountToSend r) EmptyString);
      [| destruct (isNaN (parseFloat (amountToSend r))
                   || le (parseFloat (amountToSend r)) zero);
         [| destruct (gt (parseFloat (amountToSend r)) MAX_AMOUNT)]];
      split; reflexivity. }
  destruct Hpres as [H1 H2].
  split; [exact H1 | split; [exact H2 |]].
  split.
  { unfold validateForm, presence, exec, eval, bind, ret.
    destruct (validate_amount toLocaleString r true s) as [v1 s1].
    destruct (validate_from r v1 s1) as [v2 s2].
    destruct (validate_to r v2 s2) as [v3 s3]. simpl.
    destruct (validate_distinct r v3 s3); reflexivity. }
  unfold exec, eval. rewrite validateForm_run. simpl.
  unfold from_error_of, to_error_of, verdict_of, same_code.
  rewrite Hf, Ht, Hc, String.eqb_refl. simpl.
  rewrite andb_false_r. repeat split; reflexivity.
Qed.

Lemma C6_same_currency_overrides_witness :
  let r := exec (setToCurrency (Some (coin "BTC" "50000")))
                (run_events en_US [FetchResolved btc_eth_feed]) in
  fromCurrencyError (exec (validateForm en_US r) r)
  = "Currencies cannot be the same."
  /\ eval (validateForm en_US r) r = false.
Proof.
  intros r.
  destruct (C6_same_currency_overrides en_US r r
              (coin "BTC" "50000") (coin "BTC" "50000")
              eq_refl eq_refl eq_refl)
    as (_ & _ & _ & Hfrom & _ & Hvalid).
  split; [exact Hfrom | exact Hvalid].
Defined.

(** C7, as stated, fails on a render whose error cells are stale: after the
    amount field was emptied and "5" typed, the aggregate predicate still
    sees "Amount is required." and is false, while the validator run on
    that same state reports the form valid. *)
Lemma C7_counterexample :
  ~ (isFormValid render_with_stale_error = true <->
     eval (validateForm en_US render_with_stale_error)
          render_with_stale_error = true).
Proof.
  assert (H1 : isFormValid render_with_stale_error = false) by reflexivity.
  assert (H2 : eval (validateForm en_US render_with_stale_error)
                    render_with_stale_error = true) by reflexivity.
  intros [_ H]. rewrite H1 in H. specialize (H H2). discriminate.
Qed.

(** C7, amended.  On every state the aggregate predicate is true exactly
    when the validator run on that state reports the form valid and the
    three stored error messages are empty.  So the two agree on every state
    whose error cells hold what the validator writes for that state's
    amount and currencies, in particular on the state the validator
    leaves; and on any state the aggregate predicate implies the
    validator's verdict. *)
Theorem C7_validity_agrees_once_validated (toLocaleString : number -> string) :
  (forall r : State,
      isFormValid r
      = eval (validateForm toLocaleString r) r
        && is_empty (amountError r) && is_empty (fromCurrencyError r)
        && is_empty (toCurrencyError r))
  /\ (forall r : State,
         settled toLocaleString r ->
         isFormValid r = eval (validateForm toLocaleString r) r)
  /\ (forall r : State,
         isFormValid (exec (validateForm toLocaleString r) r)
         = eval (validateForm toLocaleString r) r)
  /\ (forall r : State,
         isFormValid r = true -> eval (validateForm toLocaleString r) r = true).
Proof.
  split; [| split; [| split]].
  - intros r. unfold eval. rewrite validateForm_run. simpl.
    unfold isFormValid, verdict_of, same_code.
    rewrite (amount_ok_in_range (amountToSend r)). unfold amount_in_range.
    destruct (fromCurrency r) as [from|], (toCurrency r) as [to|]; simpl;
      rewrite ?andb_false_r; try reflexivity.
    destruct (String.eqb (code from) (code to)),
             (gt (parseFloat (amountToSend r)) zero),
             (le (parseFloat (amountToSend r)) MAX_AMOUNT); reflexivity.
  - intros r H. unfold eval. rewrite validateForm_run. simpl.
    apply (isFormValid_settled toLocaleString), H.
  - intros r. unfold exec, eval. rewrite validateForm_run. simpl.
    rewrite (isFormValid_settled toLocaleString).
    + reflexivity.
    + repeat split; reflexivity.
  - intros r H. unfold eval. rewrite validateForm_run. simpl.
    apply isFormValid_verdict, H.
Qed.

Lemma C7_validity_agrees_once_validated_witness :
  isFormValid two_btc_state
  = eval (validateForm en_US two_btc_state) two_btc_state
  /\ eval (validateForm en_US two_btc_state) two_btc_state = true.
Proof.
  split.
  - apply (proj1 (proj2 (C7_validity_agrees_once_validated en_US))).
    repeat split; reflexivity.
  - apply (proj2 (proj2 (proj2 (C7_validity_agrees_once_validated en_US)))).
    reflexivity.
Defined.

(** * The swap-direction toggle *)

(** C9.  Toggling the direction twice gives back the selection: the handler
    run in two successive renders, and likewise two dispatched toggle events
    with their effects, leave [fromCurrency] and [toCurrency] as they were,
    whether or not they are selected. *)
Theorem C9_swap_is_involutive (toLocaleString : number -> string) (s : State) :
  let swap := fun r : State => exec (handleSwapCurrencies r) r in
  let toggle := fun r : State => dispatch toLocaleString r SwapCurrencies in
  fromCurrency (swap (swap s)) = fromCurrency s
  /\ toCurrency (swap (swap s)) = toCurrency s
  /\ fromCurrency (toggle (toggle s)) = fromCurrency s
  /\ toCurrency (toggle (toggle s)) = toCurrency s.
Proof.
  intros swap toggle.
  split; [reflexivity | split; [reflexivity |]].
  assert (Hready : forall r, ready (toggle r) = ready r).
  { intros r. unfold toggle, dispatch. simpl.
    destruct (ready r) eqn:E; [| exact E].
    rewrite effects_run. unfold ready in *. simpl. rewrite E. simpl. exact E. }
  assert (Hsel : forall r, ready r = true ->
             fromCurrency (toggle r) = toCurrency r
             /\ toCurrency (toggle r) = fromCurrency r).
  { intros r E. unfold toggle, dispatch. simpl. rewrite E.
    rewrite effects_run. unfold ready in *. simpl. rewrite E. simpl.
    split; reflexivity. }
  destruct (ready s) eqn:E.
  - destruct (Hsel s E) as [H1 H2].
    assert (E' : ready (toggle s) = true) by (rewrite Hready; exact E).
    destruct (Hsel (toggle s) E') as [H3 H4].
    rewrite H3, H4, H1, H2. split; reflexivity.
  - assert (Hid : toggle s = s).
    { unfold toggle, dispatch. simpl. rewrite E. reflexivity. }
    rewrite !Hid. split; reflexivity.
Qed.

(** * The amount field *)

(** ** Matching by derivatives is matching *)

Lemma append_empty (s1 s2 : string) :
  (s1 ++ s2)%string = EmptyString -> s1 = EmptyString /\ s2 = EmptyString.
Proof. destruct s1; simpl; [auto | discriminate]. Qed.

Lemma lang_empty_nullable (r : Regex.regex) (s : string) :
  Regex.lang r s -> s = EmptyString -> Regex.nullable r = true.
Proof.
  induction 1 as [ | p c Hp | r1 r2 s1 s2 _ IH1 _ IH2 | r1 r2 s _ IH
                 | r1 r2 s _ IH | r | r s1 s2 _ _ _ _ ]; intros E; simpl;
    try reflexivity; try discriminate.
  - apply append_empty in E. destruct E as [E1 E2].
    rewrite (IH1 E1), (IH2 E2). reflexivity.
  - rewrite (IH E). reflexivity.
  - rewrite (IH E). apply orb_true_r.
Qed.

Lemma nullable_lang_empty (r : Regex.regex) :
  Regex.nullable r = true -> Regex.lang r EmptyString.
Proof.
  induction r as [ | | p | r1 IH1 r2 IH2 | r1 IH1 r2 IH2 | r1 IH1 ]; simpl;
    intros H; try discriminate.
  - constructor.
  - apply andb_prop in H. destruct H as [H1 H2].
    change EmptyString with (EmptyString ++ EmptyString)%string.
    constructor; auto.
  - apply orb_prop in H. destruct H as [H | H];
      [apply Regex.lang_alt_l | apply Regex.lang_alt_r]; auto.
  - constructor.
Qed.

Lemma deriv_sound (c : ascii) (r : Regex.regex) :
  forall s, Regex.lang (Regex.deriv c r) s -> Regex.lang r (String c s).
Proof.
  induction r as [ | | p | r1 IH1 r2 IH2 | r1 IH1 r2 IH2 | r1 IH1 ]; simpl;
    intros s H.
  - inversion H.
  - inversion H.
  - destruct (p c) eqn:Hp; inversion H; subst. constructor. exact Hp.
  - assert (Hseq : forall w, Regex.lang (Regex.Seq (Regex.deriv c r1) r2) w ->
                             Regex.lang (Regex.Seq r1 r2) (String c w)).
    { intros w Hw. inversion Hw; subst.
      change (String c (s1 ++ s2)) with (String c s1 ++ s2)%string.
      constructor; auto. }
    destruct (Regex.nullable r1) eqn:Hn.
    + inversion H; subst; [apply Hseq; assumption |].
      change (String c s) with (EmptyString ++ String c s)%string.
      constructor; [apply nullable_lang_empty, Hn | auto].
    + apply Hseq, H.
  - inversion H; subst;
      [apply Regex.lang_alt_l | apply Regex.lang_alt_r]; auto.
  - inversion H; subst.
    change (String c (s1 ++ s2)) with (String c s1 ++ s2)%string.
    constructor; auto.
Qed.

Lemma deriv_complete (r : Regex.regex) (w : string) :
  Regex.lang r w ->
  forall c s, w = String c s -> Regex.lang (Regex.deriv c r) s.
Proof.
  induction 1 as [ | p a Hp | r1 r2 s1 s2 H1 IH1 H2 IH2 | r1 r2 w H IH
                 | r1 r2 w H IH | r | r s1 s2 H1 IH1 H2 IH2 ];
    intros c s E; simpl.
  - discriminate.
  - inversion E; subst. rewrite Hp. constructor.
  - destruct s1 as [|a s1'].
    + simpl in E. rewrite (lang_empty_nullable r1 _ H1 eq_refl).
      apply Regex.lang_alt_r. apply IH2, E.
    + simpl in E. inversion E; subst.
      assert (Hs : Regex.lang (Regex.Seq (Regex.deriv c r1) r2) (s1' ++ s2))
        by (constructor; [apply IH1; reflexivity | exact H2]).
      destruct (Regex.nullable r1); [apply Regex.lang_alt_l |]; exact Hs.
  - apply Regex.lang_alt_l. apply IH, E.
  - apply Regex.lang_alt_r. apply IH, E.
  - discriminate.
  - destruct s1 as [|a s1'].
    + simpl in E. apply (IH2 c s E).
    + simpl in E. inversion E; subst.
      constructor; [apply IH1; reflexivity | exact H2].
Qed.

Lemma test_lang (s : string) :
  forall r, Regex.test r s = true <-> Regex.lang r s.
Proof.
  induction s as [|c s IH]; intros r; simpl.
  - split; [apply nullable_lang_empty |].
    intros H. apply (lang_empty_nullable r _ H eq_refl).
  - rewrite IH. split; [apply deriv_sound |].
    intros H. apply (deriv_complete r _ H c s eq_refl).
Qed.

(** ** The pattern of the amount field *)

Lemma all_digits_app (a b : string) :
  Chars.all_digits (a ++ b) = Chars.all_digits a && Chars.all_digits b.
Proof.
  induction a as [|c a IH]; simpl; [reflexivity |].
  rewrite IH. apply andb_assoc.
Qed.

Lemma star_digit_lang (s : string) :
  Regex.lang (Regex.Star Regex.digit) s <-> Chars.all_digits s = true.
Proof.
  split.
  - intros H. remember (Regex.Star Regex.digit) as r eqn:Er.
    induction H as [ | | | | | r' | r' s1 s2 H1 _ H2 IH2 ];
      try discriminate; [reflexivity |].
    injection Er as ->. rewrite all_digits_app, (IH2 eq_refl), andb_true_r.
    inversion H1; subst. simpl. rewrite H0. reflexivity.
  - induction s as [|c s IH]; simpl; intros H; [constructor |].
    apply andb_prop in H. destruct H as [Hc Hs].
    change (String c s) with (String c EmptyString ++ s)%string.
    constructor; [constructor; exact Hc | auto].
Qed.

Lemma amount_pattern_lang (s : string) :
  Regex.lang amount_pattern s <-> two_digit_runs s.
Proof.
  unfold amount_pattern, Regex.Opt, two_digit_runs. split.
  - intros H. inversion H as [ | | r1 r2 d1 t H1 H2 | | | | ]; subst.
    inversion H2 as [ | | r1 r2 o d2 H3 H4 | | | | ]; subst.
    apply star_digit_lang in H1. apply star_digit_lang in H4.
    exists d1, d2. split; [exact H1 | split; [exact H4 |]].
    inversion H3 as [ | | | r1 r2 w Hd | r1 r2 w He | | ]; subst.
    + inversion Hd as [ | p c Hc | | | | | ]; subst.
      apply Ascii.eqb_eq in Hc. subst c. right. reflexivity.
    + inversion He; subst. left. reflexivity.
  - intros (d1 & d2 & H1 & H2 & [E | E]); subst s.
    + constructor; [apply star_digit_lang, H1 |].
      change d2 with (EmptyString ++ d2)%string.
      constructor; [apply Regex.lang_alt_r; constructor | apply star_digit_lang, H2].
    + constructor; [apply star_digit_lang, H1 |].
      change (String "." d2) with (String "." EmptyString ++ d2)%string.
      constructor; [| apply star_digit_lang, H2].
      apply Regex.lang_alt_l. constructor. reflexivity.
Qed.

Lemma digit_is_no_point (c : ascii) :
  Chars.is_digit c = true -> Ascii.eqb c "." = false.
Proof.
  intros H. destruct (Ascii.eqb_spec c ".") as [->|]; [discriminate | reflexivity].
Qed.

Lemma all_digits_no_point (s : string) :
  Chars.all_digits s = true ->
  only_digits_and_points s = true /\ count_points s = 0%nat.
Proof.
  induction s as [|c s IH]; simpl; intros H; [auto |].
  apply andb_prop in H. destruct H as [Hc Hs]. destruct (IH Hs) as [H1 H2].
  rewrite Hc, H1, H2, (digit_is_no_point c Hc). auto.
Qed.

Lemma no_point_all_digits (s : string) :
  only_digits_and_points s = true -> count_points s = 0%nat ->
  Chars.all_digits s = true.
Proof.
  induction s as [|c s IH]; simpl; intros H N; [reflexivity |].
  apply andb_prop in H. destruct H as [Hc Hs].
  destruct (Ascii.eqb c ".") eqn:E; [simpl in N; discriminate |].
  rewrite orb_false_r in Hc. rewrite Hc, IH; auto.
Qed.

Lemma only_digits_and_points_app (a b : string) :
  only_digits_and_points (a ++ b)
  = only_digits_and_points a && only_digits_and_points b.
Proof.
  induction a as [|c a IH]; simpl; [reflexivity |].
  rewrite IH. apply andb_assoc.
Qed.

Lemma count_points_app (a b : string) :
  count_points (a ++ b) = (count_points a + count_points b)%nat.
Proof.
  induction a as [|c a IH]; simpl; [reflexivity |]. rewrite IH. lia.
Qed.

Lemma two_digit_runs_spec (s : string) :
  two_digit_runs s <-> digits_one_point s = true.
Proof.
  unfold two_digit_runs, digits_one_point. split.
  - intros (d1 & d2 & H1 & H2 & E).
    destruct (all_digits_no_point d1 H1) as [A1 C1].
    destruct (all_digits_no_point d2 H2) as [A2 C2].
    destruct E as [-> | ->];
      rewrite only_digits_and_points_app, count_points_app; simpl;
      rewrite A1, A2, C1, C2; reflexivity.
  - induction s as [|c s IH]; simpl; intros H.
    + exists EmptyString, EmptyString. auto.
    + apply andb_prop in H. destruct H as [H N].
      apply andb_prop in H. destruct H as [Hc Hs].
      apply Nat.leb_le in N.
      destruct (Ascii.eqb_spec c ".") as [-> | Hne].
      * exists EmptyString, s. split; [reflexivity |].
        split; [apply no_point_all_digits; [exact Hs | lia] |].
        right. reflexivity.
      * simpl in Hc, N. rewrite orb_false_r in Hc.
        destruct IH as (d1 & d2 & H1 & H2 & E).
        { rewrite Hs. apply Nat.leb_le. exact N. }
        exists (String c d1), d2. simpl. rewrite Hc, H1.
        split; [reflexivity | split; [exact H2 |]].
        destruct E as [-> | ->]; [left | right]; reflexivity.
Qed.

Lemma amount_pattern_test (value : string) :
  Regex.test amount_pattern value = digits_one_point value.
Proof.
  apply eq_true_iff_eq.
  rewrite test_lang, amount_pattern_lang. apply two_digit_runs_spec.
Qed.

(** ** The amount cell under events *)

Lemma handleAmountChange_run (value : string) (s : State) :
  amountToSend (exec (handleAmountChange value) s)
  = if Regex.test amount_pattern value then value else amountToSend s.
Proof.
  unfold handleAmountChange, exec.
  destruct (Regex.test amount_pattern value) eqn:E; simpl; [reflexivity |].
  destruct (String.eqb_spec value EmptyString) as [-> | _];
    [discriminate | reflexivity].
Qed.

Lemma amountToSend_effects (toLocaleString : number -> string) (r : State) :
  amountToSend (effects toLocaleString r) = amountToSend r.
Proof. rewrite effects_run. destruct (ready r); reflexivity. Qed.

Lemma amountToSend_fetchCryptoData response (s : State) :
  amountToSend (exec (fetchCryptoData response) s) = amountToSend s.
Proof.
  unfold fetchCryptoData. destruct response as [rawData|]; [| reflexivity].
  unfold_actions.
  destruct (processed_of (pricesMap_of rawData)) as [|first [|second rest]];
    reflexivity.
Qed.

Lemma amountToSend_dispatch (toLocaleString : number -> string) (r : State) ev :
  amountToSend (dispatch toLocaleString r ev) = amountToSend r
  \/ (exists value, ev = AmountChange value
                    /\ Regex.test amount_pattern value = true
                    /\ amountToSend (dispatch toLocaleString r ev) = value)
  \/ (ev = ClearAmount /\ amountToSend (dispatch toLocaleString r ev) = "0").
Proof.
  unfold dispatch. destruct (enabled ev r); [| left; reflexivity].
  rewrite amountToSend_effects. unfold render_after.
  destruct ev as [rawData| |value| |newValue|newValue| | |].
  - left. apply amountToSend_fetchCryptoData.
  - left. apply (amountToSend_fetchCryptoData None).
  - simpl. rewrite handleAmountChange_run.
    destruct (Regex.test amount_pattern value) eqn:E; [| left; reflexivity].
    right. left. exists value. auto.
  - right. right. split; reflexivity.
  - left. reflexivity.
  - left. reflexivity.
  - left. reflexivity.
  - left. simpl. unfold handleSwap, exec, bind. rewrite validateForm_run.
    destruct (verdict_of r); reflexivity.
  - left. reflexivity.
Qed.

Lemma run_from_amount_pattern (toLocaleString : number -> string) evs :
  forall r,
    Regex.test amount_pattern (amountToSend r) = true ->
    Regex.test amount_pattern
      (amountToSend (run_from toLocaleString r evs)) = true.
Proof.
  induction evs as [|ev evs IH]; intros r H; simpl; [exact H |].
  apply IH.
  destruct (amountToSend_dispatch toLocaleString r ev)
    as [E | [(value & _ & Hv & E) | [_ E]]]; rewrite E; auto.
Qed.

(** C10.  A change event of the amount field leaves [amountToSend] as it was
    or sets it to the new value, and sets it exactly when the new value
    matches [^\d*\.?\d*$], that is, when it holds nothing but digits and at
    most one point.  Hence, from a state whose amount matches the pattern,
    the amount matches it after every sequence of events of the component. *)
Theorem C10_amount_matches_pattern (toLocaleString : number -> string) :
  (forall (value : string) (s : State),
      let s' := exec (handleAmountChange value) s in
      (amountToSend s' = amountToSend s \/ amountToSend s' = value)
      /\ (Regex.test amount_pattern value = true -> amountToSend s' = value)
      /\ (Regex.test amount_pattern value = false ->
          amountToSend s' = amountToSend s))
  /\ (forall value : string,
         Regex.test amount_pattern value = digits_one_point value)
  /\ (forall (r : State) (evs : list event),
         Regex.test amount_pattern (amountToSend r) = true ->
         Regex.test amount_pattern
           (amountToSend (run_from toLocaleString r evs)) = true).
Proof.
  split; [| split].
  - intros value s s'. unfold s'. rewrite handleAmountChange_run.
    destruct (Regex.test amount_pattern value);
      repeat split; auto; discriminate.
  - apply amount_pattern_test.
  - intros r evs. apply run_from_amount_pattern.
Qed.

Lemma C10_amount_matches_pattern_witness :
  Regex.test amount_pattern
    (amountToSend
       (run_from en_US (mounted en_US)
          [FetchResolved btc_eth_feed; AmountChange "12.5";
           AmountChange "1e5"; AmountChange "-3"; ClearAmount;
           AmountChange "0.25"])) = true.
Proof.
  apply (proj2 (proj2 (C10_amount_matches_pattern en_US))).
  reflexivity.
Defined.

(** * The price loader *)

(** ** [Map] *)

Section MapFacts.
Context {V : Type}.
Implicit Types (m : JSMap.t V) (k : string) (v : V).

Lemma get_set_same k v m : JSMap.get k (JSMap.set k v m) = Some v.
Proof.
  induction m as [|[k' v'] m IH]; simpl.
  - rewrite String.eqb_refl. reflexivity.
  - destruct (String.eqb k k') eqn:E; simpl.
    + rewrite String.eqb_refl. reflexivity.
    + rewrite E. exact IH.
Qed.

Lemma get_set_other k k' v m :
  k <> k' -> JSMap.get k' (JSMap.set k v m) = JSMap.get k' m.
Proof.
  intros N. induction m as [|[k0 v0] m IH]; simpl.
  - destruct (String.eqb_spec k' k); [congruence | reflexivity].
  - destruct (String.eqb_spec k k0) as [<- | N0]; simpl.
    + destruct (String.eqb_spec k' k); [congruence | reflexivity].
    + destruct (String.eqb k' k0); [reflexivity | exact IH].
Qed.

Lemma get_set k k' v m :
  JSMap.get k' (JSMap.set k v m)
  = if String.eqb k k' then Some v else JSMap.get k' m.
Proof.
  destruct (String.eqb_spec k k') as [<- | N];
    [apply get_set_same | apply get_set_other, N].
Qed.

Lemma keys_set k k' v m :
  In k' (JSMap.keys (JSMap.set k v m)) <-> k' = k \/ In k' (JSMap.keys m).
Proof.
  unfold JSMap.keys. induction m as [|[k0 v0] m IH]; simpl.
  - intuition.
  - destruct (String.eqb_spec k k0) as [<- | N]; simpl; intuition.
Qed.

Lemma keys_set_NoDup k v m :
  NoDup (JSMap.keys m) -> NoDup (JSMap.keys (JSMap.set k v m)).
Proof.
  unfold JSMap.keys. induction m as [|[k0 v0] m IH]; simpl; intros H.
  - constructor; [intros [] | constructor].
  - inversion H as [|? ? Hn Hm]; subst.
    destruct (String.eqb_spec k k0) as [<- | N]; simpl.
    + constructor; assumption.
    + constructor; [| apply IH, Hm].
      intros Hin. apply (keys_set k k0 v m) in Hin.
      destruct Hin as [E | Hin]; [congruence | contradiction].
Qed.

Lemma get_keys k m :
  In k (JSMap.keys m) <-> exists v, JSMap.get k m = Some v.
Proof.
  unfold JSMap.keys. induction m as [|[k0 v0] m IH]; simpl.
  - split; [intros [] | intros [v H]; discriminate].
  - destruct (String.eqb_spec k k0) as [-> | N].
    + split; [intros _; exists v0; reflexivity | auto].
    + rewrite <- IH. split; [intros [E | H]; [congruence | exact H] | auto].
Qed.

Lemma get_In k v m : JSMap.get k m = Some v -> In (k, v) m.
Proof.
  induction m as [|[k0 v0] m IH]; simpl; [discriminate |].
  destruct (String.eqb_spec k k0) as [-> | N].
  - intros [= ->]. left. reflexivity.
  - intros H. right. apply IH, H.
Qed.

Lemma In_get k v m :
  NoDup (JSMap.keys m) -> In (k, v) m -> JSMap.get k m = Some v.
Proof.
  unfold JSMap.keys. induction m as [|[k0 v0] m IH]; simpl; [intros _ [] |].
  intros H Hin. inversion H as [|? ? Hn Hm]; subst.
  destruct Hin as [[= -> ->] | Hin].
  - rewrite String.eqb_refl. reflexivity.
  - destruct (String.eqb_spec k k0) as [-> | N]; [| apply IH; assumption].
    exfalso. apply Hn. apply (in_map fst) in Hin. exact Hin.
Qed.

End MapFacts.

(** ** The map built from the feed *)

Lemma get_fold_prices (c : string) (rawData : list RawCryptoData) :
  forall pricesMap : JSMap.t number,
    JSMap.get c
      (fold_left
         (fun pricesMap data =>
            if gt (price data) zero
            then JSMap.set (currency data) (price data) pricesMap
            else pricesMap)
         rawData pricesMap)
    = match last_positive_price c rawData with
      | Some p => Some p
      | None => JSMap.get c pricesMap
      end.
Proof.
  induction rawData as [|d rest IH]; intros pricesMap; simpl; [reflexivity |].
  rewrite IH. destruct (last_positive_price c rest); [reflexivity |].
  destruct (gt (price d) zero); [| rewrite andb_false_r; reflexivity].
  rewrite get_set, andb_true_r.
  destruct (String.eqb (currency d) c); reflexivity.
Qed.

Lemma get_pricesMap_of (c : string) (rawData : list RawCryptoData) :
  JSMap.get c (pricesMap_of rawData) = last_positive_price c rawData.
Proof.
  unfold pricesMap_of. rewrite get_fold_prices.
  destruct (last_positive_price c rawData); reflexivity.
Qed.

Lemma fold_prices_NoDup (rawData : list RawCryptoData) :
  forall pricesMap : JSMap.t number,
    NoDup (JSMap.keys pricesMap) ->
    NoDup (JSMap.keys
             (fold_left
                (fun pricesMap data =>
                   if gt (price data) zero
                   then JSMap.set (currency data) (price data) pricesMap
                   else pricesMap)
                rawData pricesMap)).
Proof.
  induction rawData as [|d rest IH]; intros pricesMap H; simpl; [exact H |].
  apply IH. destruct (gt (price d) zero); [apply keys_set_NoDup |]; exact H.
Qed.

Lemma pricesMap_of_NoDup (rawData : list RawCryptoData) :
  NoDup (JSMap.keys (pricesMap_of rawData)).
Proof. apply fold_prices_NoDup. constructor. Qed.

(** What [last_positive_price] finds: a record with the code and a positive
    price, after which no record with the code has a positive price. *)
Lemma last_positive_price_spec (c : string) (p : number)
      (rawData : list RawCryptoData) :
  last_positive_price c rawData = Some p <->
  exists before d after,
    rawData = (before ++ d :: after)%list
    /\ currency d = c /\ price d = p /\ gt p zero = true
    /\ forall d', In d' after -> currency d' = c -> gt (price d') zero = false.
Proof.
  induction rawData as [|d0 rest IH]; simpl.
  - split; [discriminate |].
    intros (before & d & after & E & _). destruct before; discriminate.
  - split.
    + destruct (last_positive_price c rest) as [q|] eqn:L.
      * intros [= ->]. destruct (proj1 IH eq_refl)
          as (before & d & after & E & Hc & Hp & Hg & Hafter).
        exists (d0 :: before), d, after. subst rest. auto 6.
      * destruct (String.eqb_spec (currency d0) c) as [Hc|]; [| discriminate].
        destruct (gt (price d0) zero) eqn:Hg; [| discriminate].
        intros [= <-]. exists [], d0, rest. repeat split; auto.
        intros d' Hin Hc'.
        destruct (gt (price d') zero) eqn:Hg'; [| reflexivity].
        assert (Hex : exists q, last_positive_price c rest = Some q).
        { clear - Hin Hc' Hg'. induction rest as [|d1 rest IH]; [destruct Hin |].
          simpl. destruct (last_positive_price c rest) as [q|] eqn:L;
            [exists q; reflexivity |].
          destruct Hin as [-> | Hin].
          - rewrite Hc', String.eqb_refl, Hg'. simpl. eauto.
          - destruct (IH Hin) as [q Hq]. discriminate. }
        destruct Hex as [q Hq]. congruence.
    + intros (before & d & after & E & Hc & Hp & Hg & Hafter).
      destruct before as [|b before]; simpl in E; injection E as -> ->.
      * assert (L : last_positive_price c after = None).
        { clear - Hafter. induction after as [|d1 after IH]; [reflexivity |].
          simpl. rewrite IH by (intros; apply Hafter; [right |]; assumption).
          destruct (String.eqb_spec (currency d1) c) as [Hc|]; [| reflexivity].
          rewrite (Hafter d1 (or_introl eq_refl) Hc). reflexivity. }
        rewrite L, Hc, String.eqb_refl, Hp, Hg. simpl. congruence.
      * assert (L : last_positive_price c (before ++ d :: after) = Some p).
        { apply IH. exists before, d, after. auto 6. }
        rewrite L. reflexivity.
Qed.

Lemma last_positive_price_In (c : string) (rawData : list RawCryptoData) :
  (exists p, last_positive_price c rawData = Some p) <->
  exists d, In d rawData /\ currency d = c /\ gt (price d) zero = true.
Proof.
  split.
  - intros [p H]. apply last_positive_price_spec in H.
    destruct H as (before & d & after & -> & Hc & Hp & Hg & _).
    exists d. rewrite Hp. repeat split; auto.
    apply in_or_app. right. left. reflexivity.
  - intros (d & Hin & Hc & Hg).
    induction rawData as [|d1 rest IH]; [destruct Hin |].
    simpl. destruct (last_positive_price c rest) as [q|] eqn:L;
      [exists q; reflexivity |].
    destruct Hin as [-> | Hin].
    + rewrite Hc, String.eqb_refl, Hg. simpl. eauto.
    + destruct (IH Hin) as [q Hq]. discriminate.
Qed.

(** C8, as stated, fails on a feed in which a code is seen again with a
    price that is not positive: the later record is skipped, so the map
    keeps 50000 for BTC although the last price seen for BTC is 0. *)
Lemma C8_counterexample : ~ last_seen_wins feed_with_unpriced_repeat.
Proof.
  intros H. specialize (H "BTC" (parseFloat "50000") eq_refl).
  vm_compute in H. discriminate.
Qed.

(** C8, amended.  The map built from the feed holds exactly the codes of the
    records with a positive price; the price of a code is the one of its
    last record with a positive price; the currency list has one entity per
    code of the map, in the order of the map, each with its code as name and
    its mapped price; and these are the map and the list the loader
    stores. *)
Theorem C8_price_loader (rawData : list RawCryptoData) :
  let pricesMap := pricesMap_of rawData in
  let processed := processed_of pricesMap in
  (forall c,
      In c (JSMap.keys pricesMap) <->
      exists d, In d rawData /\ currency d = c /\ gt (price d) zero = true)
  /\ (forall c p,
         JSMap.get c pricesMap = Some p <->
         exists before d after,
           rawData = (before ++ d :: after)%list
           /\ currency d = c /\ price d = p /\ gt p zero = true
           /\ forall d', In d' after -> currency d' = c ->
                         gt (price d') zero = false)
  /\ map code processed = JSMap.keys pricesMap
  /\ NoDup (map code processed)
  /\ (forall cur,
         In cur processed ->
         name cur = code cur
         /\ JSMap.get (code cur) pricesMap = Some (priceInUSD cur))
  /\ (forall s,
         let s' := exec (fetchCryptoData (Some rawData)) s in
         cryptoPricesInUSD s' = pricesMap
         /\ allCryptoCurrencies s' = processed).
Proof.
  intros pricesMap processed.
  assert (Hcodes : map code processed = JSMap.keys pricesMap).
  { unfold processed, processed_of, JSMap.entries, JSMap.keys.
    rewrite map_map. reflexivity. }
  split; [| split; [| split; [| split; [| split]]]].
  - intros c. rewrite get_keys. unfold pricesMap.
    rewrite <- last_positive_price_In.
    split; intros [p H]; exists p; [rewrite <- get_pricesMap_of |
                                    rewrite get_pricesMap_of]; exact H.
  - intros c p. unfold pricesMap. rewrite get_pricesMap_of.
    apply last_positive_price_spec.
  - exact Hcodes.
  - rewrite Hcodes. apply pricesMap_of_NoDup.
  - intros cur Hin. unfold processed, processed_of, JSMap.entries in Hin.
    apply in_map_iff in Hin. destruct Hin as ([c p] & <- & Hin). simpl.
    split; [reflexivity |].
    apply In_get; [apply pricesMap_of_NoDup | exact Hin].
  - intros s s'. unfold s', fetchCryptoData. unfold_actions.
    fold pricesMap. fold processed.
    destruct processed as [|first [|second rest]]; split; reflexivity.
Qed.

Lemma C8_price_loader_witness :
  JSMap.get "BTC" (pricesMap_of feed_with_unpriced_repeat)
  = Some (parseFloat "50000").
Proof.
  apply (proj1 (proj2 (C8_price_loader feed_with_unpriced_repeat))).
  exists [], (quote "BTC" "50000"), [quote "ETH" "2500"; quote "BTC" "0"].
  repeat split; try reflexivity.
  intros d' [<- | [<- | []]]; [discriminate | reflexivity].
Defined.
(** * The calculator *)

(** ** Digit strings *)

Lemma digit_char_spec (d : Z) :
  0 <= d < 10 ->
  Chars.is_digit (Chars.digit_char d) = true
  /\ Chars.digit_val (Chars.digit_char d) = d.
Proof.
  intros H.
  assert (E : d = 0 \/ d = 1 \/ d = 2 \/ d = 3 \/ d = 4 \/ d = 5 \/ d = 6
              \/ d = 7 \/ d = 8 \/ d = 9) by lia.
  repeat (destruct E as [-> | E]; [split; reflexivity |]).
  subst d. split; reflexivity.
Qed.

Lemma digits_value_app (a b : string) :
  forall acc,
    Chars.digits_value acc (a ++ b)
    = Chars.digits_value (Chars.digits_value acc a) b.
Proof. induction a as [|c a IH]; intros acc; simpl; [reflexivity | apply IH]. Qed.

Lemma length_app (a b : string) :
  length (a ++ b) = (length a + length b)%nat.
Proof. induction a as [|c a IH]; simpl; [reflexivity | now rewrite IH]. Qed.

Lemma app_assoc_string (a b c : string) :
  ((a ++ b) ++ c = a ++ (b ++ c))%string.
Proof. induction a as [|x a IH]; simpl; [reflexivity | now rewrite IH]. Qed.

Lemma digits_of_fuel_spec (k : nat) :
  forall n acc,
    0 <= n < 2 ^ Z.of_nat (S k) ->
    exists ds,
      Chars.digits_of_fuel (S k) n acc = (ds ++ acc)%string
      /\ ds <> EmptyString
      /\ Chars.all_digits ds = true
      /\ Chars.digits_value 0 ds = n.
Proof.
  induction k as [|k IH]; intros n acc H;
    change (Chars.digits_of_fuel (S ?f) n acc)
      with (if n / 10 =? 0
            then String (Chars.digit_char (n mod 10)) acc
            else Chars.digits_of_fuel f (n / 10)
                   (String (Chars.digit_char (n mod 10)) acc));
    assert (Hd : 0 <= n mod 10 < 10) by (apply Z.mod_pos_bound; lia);
    destruct (digit_char_spec _ Hd) as [D1 D2];
    destruct (Z.eqb_spec (n / 10) 0) as [E | E].
  - exists (String (Chars.digit_char (n mod 10)) EmptyString).
    cbn [Chars.all_digits Chars.digits_value append].
    rewrite D1, D2. repeat split; try discriminate.
    pose proof (Z.div_mod n 10 ltac:(lia)). lia.
  - exfalso. apply E. apply Z.div_small. change (2 ^ Z.of_nat 1) with 2 in H. lia.
  - exists (String (Chars.digit_char (n mod 10)) EmptyString).
    cbn [Chars.all_digits Chars.digits_value append].
    rewrite D1, D2. repeat split; try discriminate.
    pose proof (Z.div_mod n 10 ltac:(lia)). lia.
  - destruct (IH (n / 10) (String (Chars.digit_char (n mod 10)) acc))
      as (ds & E1 & E2 & E3 & E4).
    { split; [apply Z.div_pos; lia |].
      apply Z.div_lt_upper_bound; [lia |].
      rewrite Nat2Z.inj_succ, Z.pow_succ_r in H by lia. lia. }
    exists (ds ++ String (Chars.digit_char (n mod 10)) EmptyString)%string.
    rewrite E1, app_assoc_string.
    rewrite all_digits_app, digits_value_app, E3, E4.
    cbn [Chars.all_digits Chars.digits_value append]. rewrite D1, D2.
    repeat split.
    + destruct ds; [congruence | discriminate].
    + pose proof (Z.div_mod n 10 ltac:(lia)). lia.
Qed.

Lemma digits_of_spec (n : Z) :
  0 <= n ->
  Chars.digits_of n <> EmptyString
  /\ Chars.all_digits (Chars.digits_of n) = true
  /\ Chars.digits_value 0 (Chars.digits_of n) = n.
Proof.
  intros H. unfold Chars.digits_of.
  destruct (digits_of_fuel_spec (Z.to_nat (Z.log2 n)) n EmptyString)
    as (ds & E1 & E2 & E3 & E4).
  { split; [exact H |].
    rewrite Nat2Z.inj_succ, Z2Nat.id by apply Z.log2_nonneg.
    destruct (Z.eq_dec n 0) as [-> | N]; [reflexivity |].
    apply Z.log2_spec. lia. }
  rewrite E1. clear E1.
  assert (A : (ds ++ EmptyString)%string = ds).
  { clear. induction ds as [|c ds IH]; simpl; [reflexivity | now rewrite IH]. }
  rewrite A. auto.
Qed.

Lemma split_string (n : nat) :
  forall s, (n <= length s)%nat ->
            exists a b, s = (a ++ b)%string /\ length a = n.
Proof.
  induction n as [|n IH]; intros s H.
  - exists EmptyString, s. auto.
  - destruct s as [|c s]; simpl in H; [lia |].
    destruct (IH s) as (a & b & -> & L); [lia |].
    exists (String c a), b. simpl. auto.
Qed.

Lemma substring_prefix (a b : string) :
  substring 0 (length a) (a ++ b) = a.
Proof.
  induction a as [|c a IH]; simpl; [destruct b; reflexivity | now rewrite IH].
Qed.

Lemma substring_all (b : string) : substring 0 (length b) b = b.
Proof. induction b as [|c b IH]; simpl; [reflexivity | now rewrite IH]. Qed.

Lemma substring_suffix (a b : string) :
  substring (length a) (length b) (a ++ b) = b.
Proof. induction a as [|c a IH]; simpl; [apply substring_all | exact IH]. Qed.

Lemma repeat_char_zero (k : nat) :
  length (Chars.repeat_char "0" k) = k
  /\ Chars.all_digits (Chars.repeat_char "0" k) = true
  /\ Chars.digits_value 0 (Chars.repeat_char "0" k) = 0.
Proof.
  induction k as [|k (L & A & D)]; cbn [Chars.repeat_char length
    Chars.all_digits Chars.digits_value]; [auto |].
  rewrite L, A. repeat split. exact D.
Qed.

Lemma fixed_point_notation (f : nat) (n : Z) :
  (0 < f)%nat -> 0 <= n -> fixed_notation f n (fixed_point f n).
Proof.
  intros Hf Hn. unfold fixed_point.
  set (m := if n =? 0 then "0" else Chars.digits_of n).
  assert (Hm : m <> EmptyString /\ Chars.all_digits m = true
               /\ Chars.digits_value 0 m = n).
  { unfold m. destruct (Z.eqb_spec n 0) as [-> | N];
      [repeat split; discriminate | apply digits_of_spec, Hn]. }
  destruct Hm as (M1 & M2 & M3).
  destruct f as [|f']; [lia |].
  remember (if (length m <=? S f')%nat
            then (Chars.repeat_char "0" (S f' + 1 - length m) ++ m)%string
            else m) as m' eqn:Em'.
  assert (Hm' : (S f' < length m')%nat /\ Chars.all_digits m' = true
                /\ Chars.digits_value 0 m' = n).
  { rewrite Em'. destruct (Nat.leb_spec (length m) (S f')) as [L | L].
    - destruct (repeat_char_zero (S f' + 1 - length m)) as (Z1 & Z2 & Z3).
      rewrite length_app, all_digits_app, digits_value_app, Z1, Z2, Z3, M2.
      repeat split; [lia | exact M3].
    - auto. }
  destruct Hm' as (L & A & D).
  destruct (split_string (length m' - S f') m') as (a & b & E & La); [lia |].
  assert (Lb : length b = S f').
  { rewrite E, length_app in L. rewrite E, length_app in La. lia. }
  rewrite <- La. subst m'. rewrite E in *. clear E.
  rewrite substring_prefix.
  replace (substring (length a) (S f') (a ++ b)) with b
    by (rewrite <- Lb; symmetry; apply substring_suffix).
  rewrite all_digits_app in A. apply andb_prop in A. destruct A as [Aa Ab].
  exists a, b. repeat split; auto.
  rewrite length_app in L. destruct a; [simpl in L; lia | discriminate].
Qed.

(** ** [toFixed] *)

Lemma scaled_nearest_nonneg (m : positive) (e : Z) (f : nat) :
  0 <= scaled_nearest m e f.
Proof.
  unfold scaled_nearest. destruct e as [|p|p].
  - lia.
  - assert (0 < 2 ^ Z.pos p) by (apply Z.pow_pos_nonneg; lia).
    assert (0 <= 10 ^ Z.of_nat f) by (apply Z.pow_nonneg; lia). nia.
  - assert (0 < 2 ^ Z.pos p) by (apply Z.pow_pos_nonneg; lia).
    assert (0 < 2 ^ (Z.pos p + 1)) by (apply Z.pow_pos_nonneg; lia).
    assert (0 <= 10 ^ Z.of_nat f) by (apply Z.pow_nonneg; lia).
    apply Z.div_pos; nia.
Qed.

Lemma scaled_nearest_spec (s : bool) (m : positive) (e : Z) (f : nat) :
  nearest_scaled f (S754_finite s m e) (scaled_nearest m e f).
Proof.
  unfold nearest_scaled, scaled_nearest. destruct e as [|p|p].
  - simpl Z.max. rewrite !Z.pow_0_r. lia.
  - replace (Z.max 0 (Z.pos p)) with (Z.pos p) by lia.
    replace (Z.max 0 (- Z.pos p)) with 0 by lia. rewrite Z.pow_0_r. lia.
  - replace (Z.max 0 (Z.neg p)) with 0 by lia.
    replace (Z.max 0 (- Z.neg p)) with (Z.pos p) by lia.
    assert (P : 0 < 2 ^ Z.pos p) by (apply Z.pow_pos_nonneg; lia).
    rewrite Z.pow_0_r, Z.mul_1_r, Z.pow_add_r, Z.pow_1_r by lia.
    set (a := 2 * (Z.pos m * 10 ^ Z.of_nat f) + 2 ^ Z.pos p).
    set (d := 2 ^ Z.pos p * 2).
    pose proof (Z.div_mod a d ltac:(lia)) as E.
    pose proof (Z.mod_pos_bound a d ltac:(lia)) as B.
    nia.
Qed.

Lemma fixed_notation_chars (f : nat) (n : Z) (s : string) :
  fixed_notation f n s -> only_digits_and_points s = true.
Proof.
  intros (i & fr & -> & _ & Hi & Hfr & _).
  rewrite only_digits_and_points_app. simpl.
  destruct (all_digits_no_point i Hi) as [-> _].
  destruct (all_digits_no_point fr Hfr) as [-> _]. reflexivity.
Qed.

Lemma exponent_form_chars (a b : string) :
  only_digits_and_points (a ++ String "e" b) = false.
Proof. rewrite only_digits_and_points_app. simpl. apply andb_false_r. Qed.

Lemma toString_large_chars (m : positive) (e : Z) :
  only_digits_and_points (toString_large m e) = false.
Proof.
  unfold toString_large.
  destruct (match e with
            | Z.neg p => (Z.pos m, 2 ^ Z.pos p)
            | _ => (Z.pos m * 2 ^ e, 1)
            end) as [num den].
  destruct (shortest 17 1 (S754_finite false m e) num den
              (Z.of_nat (length (Chars.digits_of (num / den)))))
    as [[s n] k].
  destruct (Chars.digits_of s) as [|d [|c r]].
  - reflexivity.
  - apply (exponent_form_chars (String d EmptyString)).
  - apply (exponent_form_chars (String d ("." ++ String c r))).
Qed.

Lemma toFixed_notation (f : nat) (x : number) :
  (0 < f)%nat ->
  not_negative x = true ->
  ((exists n, fixed_notation f n (toFixed f x)) <-> below_1e21 x = true)
  /\ (below_1e21 x = true ->
      exists n, nearest_scaled f x n /\ fixed_notation f n (toFixed f x)).
Proof.
  intros Hf Hx.
  assert (No : forall s, only_digits_and_points s = false ->
                         ~ exists n, fixed_notation f n s).
  { intros s H [n Hn]. apply fixed_notation_chars in Hn. congruence. }
  destruct x as [s|s| |s m e];
    cbn [toFixed below_1e21 not_negative nearest_scaled] in *.
  - assert (H0 : fixed_notation f 0 (fixed_point f 0))
      by (apply fixed_point_notation; [exact Hf | lia]).
    split; [split; [reflexivity | intros _; exists 0; exact H0] |].
    intros _. exists 0. split; [reflexivity | exact H0].
  - split; [split; [| discriminate] | discriminate].
    intros H. exfalso. revert H. apply No. destruct s; reflexivity.
  - split; [split; [| discriminate] | discriminate].
    intros H. exfalso. revert H. apply No. reflexivity.
  - destruct s; [discriminate |]. cbn [append].
    destruct (at_least_1e21 m e); cbn [negb].
    + split; [split; [| discriminate] | discriminate].
      intros H. exfalso. revert H. apply No, toString_large_chars.
    + assert (H0 : fixed_notation f (scaled_nearest m e f)
                     (fixed_point f (scaled_nearest m e f)))
        by (apply fixed_point_notation;
            [exact Hf | apply scaled_nearest_nonneg]).
      split; [split; [reflexivity | intros _; eexists; exact H0] |].
      intros _. exists (scaled_nearest m e f).
      split; [apply (scaled_nearest_spec false) | exact H0].
Qed.

(** ** Signs *)

Lemma binary_round_aux_not_negative (mx ex : Z) (lx : location) :
  not_negative (binary_round_aux prec emax false mx ex lx) = true.
Proof.
  unfold binary_round_aux.
  destruct (shr_fexp prec emax mx ex lx) as [mrs e'].
  destruct (shr_fexp prec emax _ e' loc_Exact) as [mrs' e''].
  destruct (shr_m mrs'); try reflexivity.
  destruct (e'' <=? emax - prec); reflexivity.
Qed.

Ltac by_sign H :=
  repeat match goal with b : bool |- _ => destruct b end;
  try (cbv in H; discriminate H).

Lemma div_not_negative (y x : number) :
  gt y zero = true -> gt x zero = true -> not_negative (div y x) = true.
Proof.
  intros Hy Hx.
  destruct y as [sy|sy| |sy my ey]; by_sign Hy;
    destruct x as [sx|sx| |sx mx ex]; by_sign Hx; try reflexivity.
  unfold div, SFdiv.
  destruct (SFdiv_core_binary prec emax (Z.pos my) ey (Z.pos mx) ex)
    as [[mz ez] lz].
  apply binary_round_aux_not_negative.
Qed.

Lemma mul_not_negative (a r : number) :
  gt a zero = true -> not_negative r = true -> not_negative (mul a r) = true.
Proof.
  intros Ha Hr.
  destruct a as [sa|sa| |sa ma ea]; by_sign Ha;
    destruct r as [sr|sr| |sr mr er]; by_sign Hr; try reflexivity.
  apply binary_round_aux_not_negative.
Qed.

(** ** The calculator on a map of the loader *)

Lemma pricesMap_of_positive (rawData : list RawCryptoData) (c : string)
      (p : number) :
  JSMap.get c (pricesMap_of rawData) = Some p -> gt p zero = true.
Proof.
  rewrite get_pricesMap_of. intros H. apply last_positive_price_spec in H.
  destruct H as (_ & _ & _ & _ & _ & _ & H & _). exact H.
Qed.

Lemma usable_price_positive (prices : JSMap.t number) (c : CryptoCurrency)
      (p : number) :
  JSMap.get (code c) prices = Some p -> gt p zero = true ->
  usable_price prices c = Some p.
Proof.
  intros H G. unfold usable_price. rewrite H, (gt_zero_truthy p G). reflexivity.
Qed.

Lemma usable_price_get (prices : JSMap.t number) (c : CryptoCurrency)
      (p : number) :
  usable_price prices c = Some p -> JSMap.get (code c) prices = Some p.
Proof.
  unfold usable_price. destruct (JSMap.get (code c) prices) as [q|];
    [| discriminate].
  destruct (truthy q); [intros [= ->]; reflexivity | discriminate].
Qed.

Lemma result_of_convertible (r : State) from to fromPrice toPrice :
  fromCurrency r = Some from -> toCurrency r = Some to ->
  code from <> code to ->
  JSMap.get (code from) (cryptoPricesInUSD r) = Some fromPrice ->
  gt fromPrice zero = true ->
  JSMap.get (code to) (cryptoPricesInUSD r) = Some toPrice ->
  gt toPrice zero = true ->
  amount_in_range (parseFloat (amountToSend r)) = true ->
  result_of r =
  (toFixed 8 (mul (parseFloat (amountToSend r)) (div toPrice fromPrice)),
   div toPrice fromPrice).
Proof.
  intros Hf Ht Hc Hpf Hgf Hpt Hgt Ha. unfold result_of.
  rewrite Hf, Ht, Ha.
  apply String.eqb_neq in Hc. rewrite Hc. simpl.
  rewrite (usable_price_positive _ _ _ Hpf Hgf).
  rewrite (usable_price_positive _ _ _ Hpt Hgt). reflexivity.
Qed.

Lemma result_of_reset (rawData : list RawCryptoData) (r : State) :
  cryptoPricesInUSD r = pricesMap_of rawData ->
  ~ (convertible r /\ amount_in_range (parseFloat (amountToSend r)) = true) ->
  result_of r = ("0.00", zero).
Proof.
  intros Hp N. unfold result_of.
  destruct (fromCurrency r) as [from|] eqn:Hf; [| reflexivity].
  destruct (toCurrency r) as [to|] eqn:Ht; [| reflexivity].
  destruct (amount_in_range (parseFloat (amountToSend r))) eqn:Ha;
    [| reflexivity].
  destruct (String.eqb_spec (code from) (code to)) as [| Hc]; [reflexivity |].
  simpl.
  destruct (usable_price (cryptoPricesInUSD r) from) as [fp|] eqn:Uf;
    [| reflexivity].
  destruct (usable_price (cryptoPricesInUSD r) to) as [tp|] eqn:Ut;
    [| reflexivity].
  exfalso. apply N. split; [| reflexivity].
  apply usable_price_get in Uf. apply usable_price_get in Ut.
  exists from, to, fp, tp. repeat split; auto.
  - rewrite Hp in Uf. apply (pricesMap_of_positive _ _ _ Uf).
  - rewrite Hp in Ut. apply (pricesMap_of_positive _ _ _ Ut).
Qed.

Lemma price_ratio_convertible (r : State) from to fromPrice toPrice :
  fromCurrency r = Some from -> toCurrency r = Some to ->
  JSMap.get (code from) (cryptoPricesInUSD r) = Some fromPrice ->
  JSMap.get (code to) (cryptoPricesInUSD r) = Some toPrice ->
  price_ratio r = Some (div toPrice fromPrice).
Proof.
  intros Hf Ht Hpf Hpt. unfold price_ratio. rewrite Hf, Ht, Hpf, Hpt.
  reflexivity.
Qed.

(** ** The states the component settles in *)

Lemma effects_consistent (toLocaleString : number -> string) (r : State) :
  (ready r = false ->
   amountToReceive r = "0.00" /\ exchangeRate r = zero
   /\ fromCurrency r = None /\ toCurrency r = None) ->
  (isLoading r = true -> fetchError r = None) ->
  (exists rawData, cryptoPricesInUSD r = pricesMap_of rawData) ->
  consistent (effects toLocaleString r).
Proof.
  intros H2 H3 H4. rewrite effects_run. unfold consistent.
  destruct (ready r) eqn:E.
  - split; [| split; [| split]].
    + intros _.
      change ((fst (result_of r), snd (result_of r)) = result_of r).
      destruct (result_of r); reflexivity.
    + unfold ready in *. simpl. rewrite E. discriminate.
    + exact H3.
    + exact H4.
  - split; [| split; [| split]].
    + unfold ready in *. simpl. rewrite E. discriminate.
    + intros _. apply H2. reflexivity.
    + exact H3.
    + exact H4.
Qed.

Lemma mounted_consistent (toLocaleString : number -> string) :
  consistent (mounted toLocaleString).
Proof.
  apply effects_consistent.
  - intros _. repeat split; reflexivity.
  - intros _. reflexivity.
  - exists []. reflexivity.
Qed.

Lemma fetchCryptoData_run (rawData : list RawCryptoData) (r : State) :
  let r' := exec (fetchCryptoData (Some rawData)) r in
  isLoading r' = false /\ fetchError r' = fetchError r
  /\ amountToReceive r' = amountToReceive r
  /\ exchangeRate r' = exchangeRate r
  /\ cryptoPricesInUSD r' = pricesMap_of rawData.
Proof.
  unfold fetchCryptoData. unfold_actions.
  destruct (processed_of (pricesMap_of rawData)) as [|first [|second rest]];
    repeat split; reflexivity.
Qed.

Lemma fetch_rejected_run (r : State) :
  let r' := exec (fetchCryptoData None) r in
  isLoading r' = false /\ is_some (fetchError r') = true
  /\ amountToReceive r' = amountToReceive r
  /\ exchangeRate r' = exchangeRate r
  /\ fromCurrency r' = fromCurrency r /\ toCurrency r' = toCurrency r
  /\ cryptoPricesInUSD r' = cryptoPricesInUSD r.
Proof. repeat split; reflexivity. Qed.

(** The handlers of the form leave the loading cells, the result cells and
    the price map alone. *)
Lemma render_after_frame (toLocaleString : number -> string) (r : State) ev :
  match ev with FetchResolved _ | FetchRejected => False | _ => True end ->
  let r' := render_after toLocaleString ev r in
  isLoading r' = isLoading r /\ fetchError r' = fetchError r
  /\ amountToReceive r' = amountToReceive r
  /\ exchangeRate r' = exchangeRate r
  /\ cryptoPricesInUSD r' = cryptoPricesInUSD r
  /\ (ev = SwapTimer ->
      fromCurrency r' = fromCurrency r /\ toCurrency r' = toCurrency r).
Proof.
  unfold render_after.
  destruct ev as [rawData| |value| |newValue|newValue| | |]; cbn [handle];
    intros H; try destruct H;
    try (unfold handleAmountChange;
         destruct (Regex.test amount_pattern value
                   || (value =? EmptyString)%string));
    try (unfold handleSwap, exec, bind; rewrite validateForm_run;
         destruct (verdict_of r));
    repeat split; try reflexivity;
    match goal with E : _ = SwapTimer |- _ => discriminate E end.
Qed.

Lemma dispatch_consistent (toLocaleString : number -> string) (r : State) ev :
  consistent r -> consistent (dispatch toLocaleString r ev).
Proof.
  intros C. unfold dispatch. destruct (enabled ev r) eqn:En; [| exact C].
  destruct C as (C1 & C2 & C3 & C4).
  assert (Hen : match ev with
                | FetchResolved _ | FetchRejected => isLoading r = true
                | SwapTimer => True
                | _ => ready r = true
                end).
  { destruct ev; cbn [enabled] in En; try exact En; try exact I.
    - apply andb_prop in En. apply En.
    - apply andb_prop in En. destruct En as [En _].
      apply andb_prop in En. apply En. }
  clear En.
  set (r' := render_after toLocaleString ev r).
  assert (Frame : match ev with
                  | FetchResolved _ | FetchRejected => False
                  | _ => True
                  end ->
                  (ready r' = false ->
                   amountToReceive r' = "0.00" /\ exchangeRate r' = zero
                   /\ fromCurrency r' = None /\ toCurrency r' = None)
                  /\ (isLoading r' = true -> fetchError r' = None)
                  /\ (exists rawData,
                         cryptoPricesInUSD r' = pricesMap_of rawData)).
  { intros Hev.
    destruct (render_after_frame toLocaleString r ev Hev)
      as (L & F & A & X & P & S). fold r' in L, F, A, X, P, S.
    assert (R : ready r' = ready r) by (unfold ready; now rewrite L, F).
    rewrite R, L, F, A, X, P. split; [| split; [exact C3 | exact C4]].
    intros Hr.
    destruct ev; try destruct Hev; try congruence.
    destruct (S eq_refl) as [-> ->]. apply (C2 Hr). }
  apply effects_consistent;
    destruct ev as [rawData| |value| |newValue|newValue| | |];
    try (apply Frame; exact I).
  - destruct (fetchCryptoData_run rawData r) as (L & F & _).
    unfold r', render_after, ready. cbn [handle].
    rewrite L, F, (C3 Hen). discriminate.
  - assert (R : ready r = false) by (unfold ready; now rewrite Hen).
    intros _. apply (C2 R).
  - destruct (fetchCryptoData_run rawData r) as (L & _).
    unfold r', render_after. cbn [handle]. rewrite L. discriminate.
  - discriminate.
  - exists rawData. apply fetchCryptoData_run.
  - exact C4.
Qed.

Lemma run_from_consistent (toLocaleString : number -> string) evs :
  forall r, consistent r -> consistent (run_from toLocaleString r evs).
Proof.
  induction evs as [|ev evs IH]; intros r H; simpl; [exact H |].
  apply IH, dispatch_consistent, H.
Qed.

Lemma run_events_consistent (toLocaleString : number -> string) evs :
  consistent (run_events toLocaleString evs).
Proof. apply run_from_consistent, mounted_consistent. Qed.

Lemma consistent_rate_invariant (r : State) :
  consistent r -> rate_invariant r.
Proof.
  intros (C1 & C2 & _ & [rawData C4]). unfold rate_invariant.
  destruct (ready r) eqn:E.
  - specialize (C1 eq_refl). split.
    + intros [(from & to & fp & tp & Hf & Ht & Hc & Hpf & Hgf & Hpt & Hgt) Ha].
      rewrite (result_of_convertible r from to fp tp) in C1 by assumption.
      rewrite (price_ratio_convertible r from to fp tp) by assumption.
      congruence.
    + intros N. rewrite (result_of_reset rawData r C4 N) in C1.
      split; congruence.
  - destruct (C2 eq_refl) as (A & X & F & _). split.
    + intros [(from & _ & _ & _ & Hf & _) _]. congruence.
    + intros _. split; assumption.
Qed.

(** C1, as stated, fails when the product reaches 10^21: with the ceiling
    amount of a token worth 0.00001 USD converted to a token worth 100000
    USD, every precondition of the claim holds and the calculator stores
    "1e+22", which has no decimal places. *)
Lemma C1_counterexample :
  let r := large_swap_state in
  let s' := exec (calculateAmountToReceive r) r in
  ~ (convertible r
     /\ amount_in_range (parseFloat (amountToSend r)) = true ->
     exists n, fixed_notation 8 n (amountToReceive s')).
Proof.
  intros r s' H.
  assert (E : amountToReceive s' = "1e+22") by (vm_compute; reflexivity).
  destruct H as [n Hn].
  - split; [| vm_compute; reflexivity].
    exists (coin "SHIB" "0.00001"), (coin "BTC" "100000"),
      (parseFloat "0.00001"), (parseFloat "100000").
    repeat split; try (vm_compute; reflexivity). discriminate.
  - rewrite E in Hn. apply fixed_notation_chars in Hn. discriminate.
Qed.

(** C1, amended.  When the amount parses to a number in (0, 10^12], the
    selected currencies have distinct codes and the map holds a positive
    price for each, the calculator stores the rate [toPrice / fromPrice] and
    the string [toFixed(8)] of the product [amount * rate].  That string has
    exactly 8 decimal places, and then denotes the multiple of 10^-8 nearest
    to the product, exactly when the product is below 10^21; from 10^21 on
    (and for a product that is not finite) it is the plain rendering of the
    number, in exponent form. *)
Theorem C1_receive_amount (r s : State) (from to : CryptoCurrency)
        (fromPrice toPrice : number) :
  let a := parseFloat (amountToSend r) in
  gt a zero = true -> le a MAX_AMOUNT = true ->
  fromCurrency r = Some from -> toCurrency r = Some to ->
  code from <> code to ->
  JSMap.get (code from) (cryptoPricesInUSD r) = Some fromPrice ->
  JSMap.get (code to) (cryptoPricesInUSD r) = Some toPrice ->
  gt fromPrice zero = true -> gt toPrice zero = true ->
  let s' := exec (calculateAmountToReceive r) s in
  let product := mul a (div toPrice fromPrice) in
  exchangeRate s' = div toPrice fromPrice
  /\ amountToReceive s' = toFixed 8 product
  /\ ((exists n, fixed_notation 8 n (amountToReceive s'))
      <-> below_1e21 product = true)
  /\ (below_1e21 product = true ->
      exists n, nearest_scaled 8 product n
                /\ fixed_notation 8 n (amountToReceive s')).
Proof.
  intros a Ha1 Ha2 Hf Ht Hc Hpf Hpt Hgf Hgt s' product.
  assert (R : result_of r = (toFixed 8 product, div toPrice fromPrice)).
  { apply (result_of_convertible r from to); try assumption.
    unfold amount_in_range. fold a. rewrite Ha1, Ha2. reflexivity. }
  assert (E1 : exchangeRate s' = div toPrice fromPrice).
  { unfold s', exec. rewrite calculateAmountToReceive_run, R. reflexivity. }
  assert (E2 : amountToReceive s' = toFixed 8 product).
  { unfold s', exec. rewrite calculateAmountToReceive_run, R. reflexivity. }
  split; [exact E1 | split; [exact E2 |]]. rewrite E2.
  apply toFixed_notation; [lia |].
  apply mul_not_negative; [exact Ha1 |].
  apply div_not_negative; assumption.
Qed.

Lemma C1_receive_amount_witness :
  exchangeRate two_btc_state = parseFloat "0.05"
  /\ amountToReceive two_btc_state = "0.10000000"
  /\ exists n, fixed_notation 8 n "0.10000000".
Proof.
  destruct (C1_receive_amount two_btc_state two_btc_state
              (coin "BTC" "50000") (coin "ETH" "2500")
              (parseFloat "50000") (parseFloat "2500")
              eq_refl eq_refl eq_refl eq_refl
              ltac:(discriminate) eq_refl eq_refl eq_refl eq_refl)
    as (H1 & H2 & H3 & _).
  split; [exact H1 | split; [exact H2 |]].
  apply H3. reflexivity.
Defined.

(** C2, as stated, fails once the amount is cleared: BTC and ETH are
    selected, distinct and priced, yet the stored rate is 0 and not
    [2500 / 50000], because the amount "0" is not positive. *)
Lemma C2_counterexample : ~ rate_invariant_as_stated cleared_amount_state.
Proof.
  intros [H _].
  assert (C : convertible cleared_amount_state).
  { exists (coin "BTC" "50000"), (coin "ETH" "2500"),
      (parseFloat "50000"), (parseFloat "2500").
    repeat split; try reflexivity. discriminate. }
  specialize (H C). vm_compute in H. discriminate.
Qed.

(** C2, amended.  In every state the component settles in, after any
    sequence of events: when both currencies are selected, distinct and
    priced and the amount parses to a number in (0, 10^12], the stored rate
    is [priceOf(to) / priceOf(from)]; in every other state the stored rate is
    0 and the stored receive amount is "0.00". *)
Theorem C2_rate_invariant (toLocaleString : number -> string)
        (evs : list event) :
  rate_invariant (run_events toLocaleString evs).
Proof. apply consistent_rate_invariant, run_events_consistent. Qed.

Lemma C2_rate_invariant_witness :
  Some (exchangeRate two_btc_state) = price_ratio two_btc_state.
Proof.
  apply (proj1 (C2_rate_invariant en_US
                  [FetchResolved btc_eth_feed; AmountChange "2"])).
  split; [| reflexivity].
  exists (coin "BTC" "50000"), (coin "ETH" "2500"),
    (parseFloat "50000"), (parseFloat "2500").
  repeat split; try reflexivity. discriminate.
Defined.

(** C3: what the code computes on the scenario.  With BTC at 50000, ETH at
    2500, the amount "2", from BTC to ETH, the calculator stores the rate
    [2500 / 50000] (the number 0.05) and the receive amount "0.10000000",
    not 20 and "40.00000000"; these are what the inverse ratio
    [fromPrice / toPrice] gives. *)
Theorem C3_scenario_as_computed :
  let r := two_btc_state in
  let s' := exec (calculateAmountToReceive r) r in
  fromCurrency r = Some (coin "BTC" "50000")
  /\ toCurrency r = Some (coin "ETH" "2500")
  /\ cryptoPricesInUSD r = [("BTC", parseFloat "50000"); ("ETH", parseFloat "2500")]
  /\ amountToSend r = "2"
  /\ exchangeRate s' = parseFloat "0.05"
  /\ amountToReceive s' = "0.10000000"
  /\ exchangeRate s' <> of_Z 20
  /\ amountToReceive s' <> "40.00000000"
  /\ div (parseFloat "50000") (parseFloat "2500") = of_Z 20
  /\ toFixed 8 (mul (parseFloat "2")
                    (div (parseFloat "50000") (parseFloat "2500")))
     = "40.00000000".
Proof.
  repeat split; try reflexivity; vm_compute; discriminate.
Qed.

(** C4.  With a price map built by the loader, whenever a precondition
    fails (the amount does not parse to a number in (0, 10^12], a currency
    is not selected, the codes are equal, or a currency has no positive
    price in the map) the calculator stores "0.00" and the rate 0. *)
Theorem C4_reset_when_precondition_fails
        (rawData : list RawCryptoData) (r s : State) :
  cryptoPricesInUSD r = pricesMap_of rawData ->
  precondition_fails r ->
  let s' := exec (calculateAmountToReceive r) s in
  amountToReceive s' = "0.00" /\ exchangeRate s' = zero.
Proof.
  intros Hp Hfail s'.
  assert (R : result_of r = ("0.00", zero)).
  { apply (result_of_reset rawData r Hp).
    intros [(from & to & fp & tp & Hf & Ht & Hc & Hpf & Hgf & Hpt & Hgt) Ha].
    destruct Hfail as [H | [H | [H | [H | [H | H]]]]]; try congruence.
    - unfold same_code in H. rewrite Hf, Ht in H.
      apply String.eqb_eq in H. contradiction.
    - destruct H as (from' & Hf' & H). rewrite Hf in Hf'.
      injection Hf' as <-. rewrite (H fp Hpf) in Hgf. discriminate.
    - destruct H as (to' & Ht' & H). rewrite Ht in Ht'.
      injection Ht' as <-. rewrite (H tp Hpt) in Hgt. discriminate. }
  unfold s', exec. rewrite calculateAmountToReceive_run, R.
  split; reflexivity.
Qed.

Lemma C4_reset_when_precondition_fails_witness :
  amountToReceive
    (exec (calculateAmountToReceive cleared_amount_state) two_btc_state)
  = "0.00"
  /\ exchangeRate
       (exec (calculateAmountToReceive cleared_amount_state) two_btc_state)
     = zero.
Proof.
  apply (C4_reset_when_precondition_fails btc_eth_feed).
  - reflexivity.
  - left. reflexivity.
Defined.

(** The price map of every state the component settles in is one the
    loader built, so C4 covers every run of the component. *)
Lemma run_events_prices (toLocaleString : number -> string)
      (evs : list event) :
  exists rawData,
    cryptoPricesInUSD (run_events toLocaleString evs) = pricesMap_of rawData.
Proof. apply run_events_consistent. Qed.

(** * More of the component *)

(** ** The validator's verdict *)

(** The validator reports the form valid exactly when both currencies are
    selected with different codes and the amount parses to a number in
    (0, 10^12]: the guard under which the calculator converts. *)
Theorem validateForm_verdict_is_calculator_guard
  (toLocaleString : number -> string) (r s : State) :
  eval (validateForm toLocaleString r) s = true <->
  exists from to,
    fromCurrency r = Some from /\ toCurrency r = Some to
    /\ code from <> code to
    /\ gt (parseFloat (amountToSend r)) zero = true
    /\ le (parseFloat (amountToSend r)) MAX_AMOUNT = true.
Proof.
  unfold eval. rewrite validateForm_run. simpl.
  unfold verdict_of, same_code.
  rewrite (amount_ok_in_range (amountToSend r)). unfold amount_in_range.
  split.
  - destruct (fromCurrency r) as [from|], (toCurrency r) as [to|];
      destruct (gt (parseFloat (amountToSend r)) zero),
               (le (parseFloat (amountToSend r)) MAX_AMOUNT);
      simpl; try discriminate.
    destruct (String.eqb_spec (code from) (code to)); [discriminate |].
    intros _. exists from, to. auto.
  - intros (from & to & -> & -> & Hc & -> & ->). simpl.
    apply String.eqb_neq in Hc. rewrite Hc. reflexivity.
Qed.

(** The verdict is true exactly when the validator wrote no message: each
    failing field has its message, whatever the other fields are. *)
Theorem validateForm_verdict_is_no_message
  (toLocaleString : number -> string) (r s : State) :
  let s' := exec (validateForm toLocaleString r) s in
  eval (validateForm toLocaleString r) s
  = is_empty (amountError s') && is_empty (fromCurrencyError s')
    && is_empty (toCurrencyError s').
Proof.
  unfold exec, eval. rewrite validateForm_run. simpl.
  rewrite amount_error_empty.
  unfold verdict_of, from_error_of, to_error_of, same_code.
  destruct (amount_ok (amountToSend r)); [| reflexivity].
  destruct (fromCurrency r) as [from|], (toCurrency r) as [to|]; simpl;
    try reflexivity.
  destruct (String.eqb (code from) (code to)); reflexivity.
Qed.

(** ** The effects *)

(** One pass of the two effects is enough: run again on the state they
    leave, they write the same cells with the same values. *)
Theorem effects_reach_a_fixed_point
  (toLocaleString : number -> string) (r : State) :
  effects toLocaleString (effects toLocaleString r)
  = effects toLocaleString r.
Proof.
  rewrite (effects_run toLocaleString (effects toLocaleString r)).
  rewrite effects_run. unfold ready.
  destruct (negb (isLoading r) && negb (is_some (fetchError r))) eqn:E;
    simpl; rewrite E; reflexivity.
Qed.

(** ** The handlers of the form, with the effects that follow them *)

Lemma dispatch_enabled (toLocaleString : number -> string) (r : State) ev :
  enabled ev r = true ->
  dispatch toLocaleString r ev
  = effects toLocaleString (render_after toLocaleString ev r).
Proof. intros E. unfold dispatch. rewrite E. reflexivity. Qed.

(** The clear button writes "0", not the empty string, and clears the
    amount error; the submit button is disabled from that render on.  When
    the amount was not "0" already, the validation that the change of the
    amount brings sets the error again: the form is left with "Please enter
    a positive amount.", a reset result and the selection it had. *)
Theorem clear_leaves_the_form_invalid
  (toLocaleString : number -> string) (r : State) :
  enabled ClearAmount r = true ->
  let r' := render_after toLocaleString ClearAmount r in
  amountToSend r' = "0" /\ amountError r' = EmptyString
  /\ isFormValid r' = false
  /\ (amountToSend r <> "0" ->
      let s := dispatch toLocaleString r ClearAmount in
      amountToSend s = "0"
      /\ amountError s = "Please enter a positive amount."
      /\ amountToReceive s = "0.00" /\ exchangeRate s = zero
      /\ isFormValid s = false
      /\ fromCurrency s = fromCurrency r /\ toCurrency s = toCurrency r).
Proof.
  intros E r'.
  split; [reflexivity | split; [reflexivity | split]].
  - unfold r', isFormValid. simpl.
    destruct (fromCurrency r) as [from|], (toCurrency r) as [to|];
      try reflexivity.
    destruct (String.eqb (code from) (code to)); reflexivity.
  - intros _ s. unfold s. rewrite (dispatch_enabled _ _ _ E).
    simpl in E. apply andb_prop in E. destruct E as [E _].
    rewrite effects_run. unfold ready in *. simpl. rewrite E.
    unfold result_of, isFormValid. simpl.
    destruct (fromCurrency r) as [from|], (toCurrency r) as [to|]; simpl;
      repeat split; try reflexivity;
      destruct (String.eqb (code from) (code to)); reflexivity.
Qed.

Lemma clear_leaves_the_form_invalid_witness :
  amountError (dispatch en_US two_btc_state ClearAmount)
  = "Please enter a positive amount."
  /\ isFormValid (dispatch en_US two_btc_state ClearAmount) = false.
Proof.
  destruct (clear_leaves_the_form_invalid en_US two_btc_state eq_refl)
    as (_ & _ & _ & H).
  destruct (H ltac:(discriminate)) as (_ & H1 & _ & _ & H2 & _).
  split; [exact H1 | exact H2].
Defined.



(** Picking in one field the currency of the other is reported on both
    fields at once, resets the result and disables the submit button,
    whichever of the two pickers is used. *)
Theorem picking_the_same_currency_twice
  (toLocaleString : number -> string) (r : State) (c other : CryptoCurrency) :
  ready r = true ->
  code c = code other ->
  (toCurrency r = Some other ->
   let s := dispatch toLocaleString r (FromCurrencyChange (Some c)) in
   fromCurrencyError s = "Currencies cannot be the same."
   /\ toCurrencyError s = "Currencies cannot be the same."
   /\ amountToReceive s = "0.00" /\ exchangeRate s = zero
   /\ isFormValid s = false /\ rate_line s = None)
  /\ (fromCurrency r = Some other ->
      let s := dispatch toLocaleString r (ToCurrencyChange (Some c)) in
      fromCurrencyError s = "Currencies cannot be the same."
      /\ toCurrencyError s = "Currencies cannot be the same."
      /\ amountToReceive s = "0.00" /\ exchangeRate s = zero
      /\ isFormValid s = false /\ rate_line s = None).
Proof.
  intros Hr Hc.
  split; intros Ho s; unfold s;
    (rewrite dispatch_enabled by exact Hr);
    rewrite effects_run; unfold ready in *; simpl; rewrite Hr;
    unfold result_of, isFormValid, rate_line, from_error_of, to_error_of,
      same_code; simpl; rewrite Ho, Hc, String.eqb_refl; simpl;
    rewrite ?andb_false_r; repeat split; reflexivity.
Qed.

Lemma picking_the_same_currency_twice_witness :
  let s := dispatch en_US two_btc_state
             (ToCurrencyChange (Some (coin "BTC" "50000"))) in
  toCurrencyError s = "Currencies cannot be the same."
  /\ isFormValid s = false.
Proof.
  intros s.
  destruct (proj2 (picking_the_same_currency_twice en_US two_btc_state
                     (coin "BTC" "50000") (coin "BTC" "50000")
                     eq_refl eq_refl) eq_refl)
    as (_ & H1 & _ & _ & H2 & _).
  split; [exact H1 | exact H2].
Defined.

(** Emptying a picker sets that field's "required" message and leaves the
    other field's message empty when that one is selected; the result is
    reset and the submit button disabled. *)
Theorem emptying_a_picker
  (toLocaleString : number -> string) (r : State) :
  ready r = true ->
  (let s := dispatch toLocaleString r (FromCurrencyChange None) in
   fromCurrencyError s = select_from_message
   /\ (is_some (toCurrency r) = true -> toCurrencyError s = EmptyString)
   /\ amountToReceive s = "0.00" /\ exchangeRate s = zero
   /\ isFormValid s = false)
  /\ (let s := dispatch toLocaleString r (ToCurrencyChange None) in
      toCurrencyError s = select_to_message
      /\ (is_some (fromCurrency r) = true -> fromCurrencyError s = EmptyString)
      /\ amountToReceive s = "0.00" /\ exchangeRate s = zero
      /\ isFormValid s = false).
Proof.
  intros Hr.
  split; intros s; unfold s;
    (rewrite dispatch_enabled by exact Hr);
    rewrite effects_run; unfold ready in *; simpl; rewrite Hr;
    unfold result_of, isFormValid, from_error_of, to_error_of, same_code;
    simpl.
  - destruct (toCurrency r); repeat split; try reflexivity; discriminate.
  - destruct (fromCurrency r); repeat split; try reflexivity; discriminate.
Qed.

Lemma emptying_a_picker_witness :
  toCurrencyError (dispatch en_US two_btc_state (ToCurrencyChange None))
  = select_to_message
  /\ fromCurrencyError (dispatch en_US two_btc_state (ToCurrencyChange None))
     = EmptyString.
Proof.
  destruct (proj2 (emptying_a_picker en_US two_btc_state eq_refl))
    as (H1 & H2 & _).
  split; [exact H1 | apply H2; reflexivity].
Defined.

(** ** The toggle and the validator, the toggle and the rate *)

(** The toggle keeps the amount and the validator's verdict, and turns the
    rate upside down: after it the stored rate is [fromPrice / toPrice] of
    the selection before it, and the receive amount is converted at that
    rate. *)
Theorem toggle_inverts_the_rate
  (toLocaleString : number -> string) (r : State) (from to : CryptoCurrency)
  (fromPrice toPrice : number) :
  ready r = true ->
  fromCurrency r = Some from -> toCurrency r = Some to ->
  code from <> code to ->
  JSMap.get (code from) (cryptoPricesInUSD r) = Some fromPrice ->
  JSMap.get (code to) (cryptoPricesInUSD r) = Some toPrice ->
  gt fromPrice zero = true -> gt toPrice zero = true ->
  amount_in_range (parseFloat (amountToSend r)) = true ->
  let s := dispatch toLocaleString r SwapCurrencies in
  fromCurrency s = Some to /\ toCurrency s = Some from
  /\ amountToSend s = amountToSend r
  /\ exchangeRate s = div fromPrice toPrice
  /\ amountToReceive s
     = toFixed 8 (mul (parseFloat (amountToSend r)) (div fromPrice toPrice))
  /\ eval (validateForm toLocaleString s) s
     = eval (validateForm toLocaleString r) r.
Proof.
  intros Hr Hf Ht Hc Hpf Hpt Hgf Hgt Ha s. unfold s.
  rewrite dispatch_enabled by exact Hr.
  rewrite effects_run.
  set (r' := render_after toLocaleString SwapCurrencies r).
  assert (R' : ready r' = true) by exact Hr.
  assert (Res : result_of r'
                = (toFixed 8 (mul (parseFloat (amountToSend r))
                                  (div fromPrice toPrice)),
                   div fromPrice toPrice)).
  { apply (result_of_convertible r' to from); auto. }
  rewrite R', Res. unfold eval. rewrite !validateForm_run. simpl.
  unfold verdict_of. simpl. rewrite Hf, Ht. simpl.
  rewrite (String.eqb_sym (code to) (code from)).
  repeat split; reflexivity.
Qed.

Lemma toggle_inverts_the_rate_witness :
  exchangeRate (dispatch en_US two_btc_state SwapCurrencies) = of_Z 20
  /\ amountToReceive (dispatch en_US two_btc_state SwapCurrencies)
     = "40.00000000".
Proof.
  destruct (toggle_inverts_the_rate en_US two_btc_state
              (coin "BTC" "50000") (coin "ETH" "2500")
              (parseFloat "50000") (parseFloat "2500")
              eq_refl eq_refl eq_refl ltac:(discriminate)
              eq_refl eq_refl eq_refl eq_refl eq_refl)
    as (_ & _ & _ & H1 & H2 & _).
  split; [exact H1 | exact H2].
Defined.

(** ** Loading *)

Lemma processed_of_get (rawData : list RawCryptoData) (cur : CryptoCurrency) :
  In cur (processed_of (pricesMap_of rawData)) ->
  name cur = code cur
  /\ JSMap.get (code cur) (pricesMap_of rawData) = Some (priceInUSD cur)
  /\ gt (priceInUSD cur) zero = true.
Proof.
  intros Hin. unfold processed_of, JSMap.entries in Hin.
  apply in_map_iff in Hin. destruct Hin as ([c p] & <- & Hin). simpl.
  assert (G : JSMap.get c (pricesMap_of rawData) = Some p)
    by (apply In_get; [apply pricesMap_of_NoDup | exact Hin]).
  repeat split; [exact G | apply (pricesMap_of_positive _ _ _ G)].
Qed.

Lemma processed_of_codes_NoDup (rawData : list RawCryptoData) :
  NoDup (map code (processed_of (pricesMap_of rawData))).
Proof.
  unfold processed_of, JSMap.entries. rewrite map_map.
  apply pricesMap_of_NoDup.
Qed.

Lemma mounted_loading (toLocaleString : number -> string) :
  isLoading (mounted toLocaleString) = true.
Proof. reflexivity. Qed.

(** When the feed yields at least two currencies, the form opens on a
    conversion of "100" from the first to the second: the two are selected,
    their codes differ, no error is shown, the rate and the receive amount
    are computed from their prices, and the submit button is enabled. *)
Theorem load_selects_the_first_two
  (toLocaleString : number -> string) (rawData : list RawCryptoData)
  (first second : CryptoCurrency) (rest : list CryptoCurrency) :
  processed_of (pricesMap_of rawData) = first :: second :: rest ->
  let s := run_events toLocaleString [FetchResolved rawData] in
  view s = FormScreen
  /\ allCryptoCurrencies s = first :: second :: rest
  /\ fromCurrency s = Some first /\ toCurrency s = Some second
  /\ code first <> code second
  /\ amountError s = EmptyString /\ fromCurrencyError s = EmptyString
  /\ toCurrencyError s = EmptyString
  /\ exchangeRate s = div (priceInUSD second) (priceInUSD first)
  /\ amountToReceive s
     = toFixed 8 (mul (parseFloat "100")
                      (div (priceInUSD second) (priceInUSD first)))
  /\ isFormValid s = true.
Proof.
  intros H s.
  assert (Hc : code first <> code second).
  { pose proof (processed_of_codes_NoDup rawData) as N. rewrite H in N.
    simpl in N. inversion N as [|? ? Hn _]; subst.
    intros E. apply Hn. left. symmetry. exact E. }
  destruct (processed_of_get rawData first) as (_ & G1 & P1);
    [rewrite H; left; reflexivity |].
  destruct (processed_of_get rawData second) as (_ & G2 & P2);
    [rewrite H; right; left; reflexivity |].
  unfold s, run_events, run_from. simpl fold_left.
  rewrite dispatch_enabled by reflexivity.
  rewrite effects_run.
  set (r' := render_after toLocaleString (FetchResolved rawData)
               (mounted toLocaleString)).
  assert (E : r' = exec (setToCurrency (Some second))
                     (exec (setFromCurrency (Some first))
                        (exec (setCryptoPricesInUSD (pricesMap_of rawData))
                           (exec (setAllCryptoCurrencies
                                    (first :: second :: rest))
                              (exec (setIsLoading false)
                                 (mounted toLocaleString)))))).
  { unfold r', render_after, handle, fetchCryptoData. rewrite H.
    reflexivity. }
  assert (R' : ready r' = true) by (rewrite E; reflexivity).
  assert (Res : result_of r'
                = (toFixed 8 (mul (parseFloat "100")
                                  (div (priceInUSD second) (priceInUSD first))),
                   div (priceInUSD second) (priceInUSD first))).
  { assert (A : amountToSend r' = "100") by (rewrite E; reflexivity).
    pose proof (result_of_convertible r' first second
                  (priceInUSD first) (priceInUSD second)) as Res.
    rewrite A in Res. apply Res; try (rewrite E; reflexivity); auto.
    - rewrite E. exact G1.
    - rewrite E. exact G2. }
  rewrite R', Res. apply String.eqb_neq in Hc.
  unfold view, isFormValid, from_error_of, to_error_of, same_code.
  rewrite E. simpl. rewrite Hc. simpl.
  repeat split; try reflexivity.
  apply String.eqb_neq. exact Hc.
Qed.

Lemma load_selects_the_first_two_witness :
  fromCurrency (run_events en_US [FetchResolved btc_eth_feed])
  = Some (coin "BTC" "50000")
  /\ isFormValid (run_events en_US [FetchResolved btc_eth_feed]) = true.
Proof.
  destruct (load_selects_the_first_two en_US btc_eth_feed
              (coin "BTC" "50000") (coin "ETH" "2500") [] eq_refl)
    as (_ & _ & H1 & _ & _ & _ & _ & _ & _ & _ & H2).
  split; [exact H1 | exact H2].
Defined.

Lemma fold_prices_no_positive (rawData : list RawCryptoData) :
  (forall d, In d rawData -> gt (price d) zero = false) ->
  forall pricesMap : JSMap.t number,
    fold_left
      (fun pricesMap data =>
         if gt (price data) zero
         then JSMap.set (currency data) (price data) pricesMap
         else pricesMap)
      rawData pricesMap
    = pricesMap.
Proof.
  induction rawData as [|d rest IH]; intros H pricesMap; simpl;
    [reflexivity |].
  rewrite (H d (or_introl eq_refl)). apply IH.
  intros d' Hin. apply H. right. exact Hin.
Qed.

(** When no record of the feed has a positive price (the empty feed among
    them), the form is shown with nothing to select: the list is empty,
    neither currency is selected, both "required" messages are set, the
    result is "0.00" and 0, and the submit button is disabled. *)
Theorem load_without_prices
  (toLocaleString : number -> string) (rawData : list RawCryptoData) :
  (forall d, In d rawData -> gt (price d) zero = false) ->
  let s := run_events toLocaleString [FetchResolved rawData] in
  view s = FormScreen
  /\ allCryptoCurrencies s = [] /\ cryptoPricesInUSD s = JSMap.empty
  /\ fromCurrency s = None /\ toCurrency s = None
  /\ fromCurrencyError s = select_from_message
  /\ toCurrencyError s = select_to_message
  /\ amountToReceive s = "0.00" /\ exchangeRate s = zero
  /\ isFormValid s = false /\ rate_line s = None.
Proof.
  intros H s.
  assert (P : pricesMap_of rawData = JSMap.empty)
    by (apply fold_prices_no_positive, H).
  unfold s, run_events, run_from. simpl fold_left.
  rewrite dispatch_enabled by reflexivity.
  unfold render_after, handle, fetchCryptoData. rewrite P.
  repeat split; reflexivity.
Qed.

Lemma load_without_prices_witness :
  allCryptoCurrencies
    (run_events en_US [FetchResolved [quote "BTC" "0"; quote "ETH" "-1"]])
  = []
  /\ isFormValid
       (run_events en_US [FetchResolved [quote "BTC" "0"; quote "ETH" "-1"]])
     = false.
Proof.
  assert (H : forall d, In d [quote "BTC" "0"; quote "ETH" "-1"] ->
                        gt (price d) zero = false).
  { intros d [<- | [<- | []]]; reflexivity. }
  destruct (load_without_prices en_US _ H)
    as (_ & H1 & _ & _ & _ & _ & _ & _ & _ & H2 & _).
  split; [exact H1 | exact H2].
Defined.

(** A failed request ends the component: the error screen shows the fixed
    message, and no event that the component can then receive changes any
    cell; there is no second request. *)
Theorem failed_load_is_final
  (toLocaleString : number -> string) (evs : list event) :
  let s := run_events toLocaleString [FetchRejected] in
  view s
  = ErrorScreen "Failed to load cryptocurrency prices. Please try again later."
  /\ allCryptoCurrencies s = [] /\ fromCurrency s = None
  /\ toCurrency s = None
  /\ run_events toLocaleString (FetchRejected :: evs) = s.
Proof.
  intros s.
  split; [reflexivity | split; [reflexivity | split; [reflexivity |]]].
  split; [reflexivity |].
  unfold s, run_events, run_from. simpl fold_left.
  set (r := dispatch toLocaleString (mounted toLocaleString) FetchRejected).
  assert (D : forall ev, enabled ev r = false) by (intros []; reflexivity).
  induction evs as [|ev evs IH]; simpl; [reflexivity |].
  unfold dispatch at 2. rewrite D. exact IH.
Qed.

(** ** The three screens *)

Lemma dispatch_keeps_the_form (toLocaleString : number -> string)
      (r : State) ev :
  isLoading r = false -> fetchError r = None ->
  isLoading (dispatch toLocaleString r ev) = false
  /\ fetchError (dispatch toLocaleString r ev) = None.
Proof.
  intros L F. unfold dispatch.
  destruct (enabled ev r) eqn:E; [| auto].
  assert (N : match ev with
              | FetchResolved _ | FetchRejected => False
              | _ => True
              end).
  { destruct ev; simpl in E; try exact I; congruence. }
  destruct (render_after_frame toLocaleString r ev N) as (L' & F' & _).
  rewrite effects_run.
  destruct (ready (render_after toLocaleString ev r)); simpl;
    rewrite L', F'; auto.
Qed.

(** The component starts on the loading screen, where nothing but the
    outcome of the request changes a cell; and once the prices are loaded
    the form stays on screen whatever happens next: the component never
    goes back to the loading screen and never shows the error screen. *)
Theorem screens_follow_the_request (toLocaleString : number -> string) :
  view (mounted toLocaleString) = LoadingScreen
  /\ (forall ev,
         match ev with
         | FetchResolved _ | FetchRejected => True
         | _ => dispatch toLocaleString (mounted toLocaleString) ev
                = mounted toLocaleString
         end)
  /\ (forall rawData evs,
         view (run_events toLocaleString (FetchResolved rawData :: evs))
         = FormScreen).
Proof.
  split; [reflexivity | split].
  - intros []; try exact I; reflexivity.
  - intros rawData evs. unfold run_events, run_from. simpl fold_left.
    set (r := dispatch toLocaleString (mounted toLocaleString)
                (FetchResolved rawData)).
    assert (H : isLoading r = false /\ fetchError r = None).
    { unfold r. rewrite dispatch_enabled by reflexivity.
      rewrite effects_run.
      destruct (fetchCryptoData_run rawData (mounted toLocaleString))
        as (L & F & _).
      unfold render_after, handle.
      destruct (ready _); simpl; rewrite L, F; auto. }
    clearbody r. revert r H.
    induction evs as [|ev evs IH]; intros r [L F]; simpl.
    + unfold view. rewrite L, F. reflexivity.
    + apply IH. apply dispatch_keeps_the_form; assumption.
Qed.

(** ** Signs of what the form shows *)

Lemma digit_char_mod (n : Z) :
  Chars.is_digit (Chars.digit_char (n mod 10)) = true.
Proof. apply digit_char_spec. apply Z.mod_pos_bound. lia. Qed.

Lemma digits_of_fuel_head (fuel : nat) :
  forall n acc,
    head_is_digit acc = true ->
    head_is_digit (Chars.digits_of_fuel fuel n acc) = true.
Proof.
  induction fuel as [|k IH]; intros n acc H; simpl; [exact H |].
  destruct (n / 10 =? 0); [apply digit_char_mod |].
  apply IH. apply digit_char_mod.
Qed.

Lemma digits_of_head (n : Z) : head_is_digit (Chars.digits_of n) = true.
Proof.
  unfold Chars.digits_of. cbn [Chars.digits_of_fuel].
  destruct (n / 10 =? 0); [apply digit_char_mod |].
  apply digits_of_fuel_head. apply digit_char_mod.
Qed.

Lemma head_digit_no_minus (s : string) :
  head_is_digit s = true -> starts_with_minus s = false.
Proof.
  destruct s as [|c s]; simpl; [reflexivity |].
  intros H. destruct (Ascii.eqb_spec c "-") as [-> |]; [discriminate | auto].
Qed.

Lemma fixed_notation_head (f : nat) (n : Z) (s : string) :
  fixed_notation f n s -> head_is_digit s = true.
Proof.
  intros (i & fr & -> & Hi & Di & _).
  destruct i as [|c i]; [congruence |]. simpl in *.
  apply andb_prop in Di. apply Di.
Qed.

Lemma toString_large_no_minus (m : positive) (e : Z) :
  starts_with_minus (toString_large m e) = false.
Proof.
  unfold toString_large.
  destruct (match e with
            | Z.neg p => (Z.pos m, 2 ^ Z.pos p)
            | _ => (Z.pos m * 2 ^ e, 1)
            end) as [num den].
  destruct (shortest 17 1 (S754_finite false m e) num den
              (Z.of_nat (length (Chars.digits_of (num / den)))))
    as [[s n] k].
  pose proof (digits_of_head s) as H.
  destruct (Chars.digits_of s) as [|d [|c r]]; [reflexivity | |];
    simpl in H |- *;
    (destruct (Ascii.eqb_spec d "-") as [-> |]; [discriminate | reflexivity]).
Qed.

Lemma toFixed_no_minus (f : nat) (x : number) :
  (0 < f)%nat -> not_negative x = true ->
  starts_with_minus (toFixed f x) = false.
Proof.
  intros Hf Hx.
  destruct x as [s|s| |s m e]; cbn [toFixed not_negative] in *.
  - apply head_digit_no_minus, (fixed_notation_head f 0).
    apply fixed_point_notation; [exact Hf | lia].
  - destruct s; [discriminate | reflexivity].
  - reflexivity.
  - destruct s; [discriminate |]. cbn [append].
    destruct (at_least_1e21 m e); [apply toString_large_no_minus |].
    apply head_digit_no_minus, (fixed_notation_head f (scaled_nearest m e f)).
    apply fixed_point_notation; [exact Hf | apply scaled_nearest_nonneg].
Qed.

Lemma result_of_not_negative (rawData : list RawCryptoData) (r : State) :
  cryptoPricesInUSD r = pricesMap_of rawData ->
  starts_with_minus (fst (result_of r)) = false
  /\ not_negative (snd (result_of r)) = true.
Proof.
  intros Hp. unfold result_of.
  destruct (fromCurrency r) as [from|]; [| auto].
  destruct (toCurrency r) as [to|]; [| auto].
  destruct (amount_in_range (parseFloat (amountToSend r))) eqn:Ha; [| auto].
  destruct (negb (String.eqb (code from) (code to))); [| auto]. simpl.
  destruct (usable_price (cryptoPricesInUSD r) from) as [fp|] eqn:Uf; [| auto].
  destruct (usable_price (cryptoPricesInUSD r) to) as [tp|] eqn:Ut; [| auto].
  apply usable_price_get in Uf. apply usable_price_get in Ut.
  rewrite Hp in Uf, Ut.
  apply pricesMap_of_positive in Uf. apply pricesMap_of_positive in Ut.
  unfold amount_in_range in Ha. apply andb_prop in Ha. destruct Ha as [Ha _].
  simpl.
  assert (D : not_negative (div tp fp) = true)
    by (apply div_not_negative; assumption).
  split; [| exact D].
  apply toFixed_no_minus; [lia |]. apply mul_not_negative; assumption.
Qed.

(** Whatever the feed and whatever the user does, the form never shows a
    negative result: in every state the component settles in, the stored
    rate is not negative and the receive amount does not begin with a minus
    sign. *)
Theorem result_is_never_negative
  (toLocaleString : number -> string) (evs : list event) :
  let s := run_events toLocaleString evs in
  not_negative (exchangeRate s) = true
  /\ starts_with_minus (amountToReceive s) = false.
Proof.
  intros s.
  destruct (run_events_consistent toLocaleString evs)
    as (C1 & C2 & _ & [rawData C4]). fold s in C1, C2, C4.
  destruct (ready s) eqn:E.
  - specialize (C1 eq_refl).
    destruct (result_of_not_negative rawData s C4) as [H1 H2].
    rewrite <- C1 in H1, H2. simpl in H1, H2. auto.
  - destruct (C2 eq_refl) as (-> & -> & _). auto.
Qed.

(** ** What the amounts the field accepts parse to *)

Lemma shr_1_nonneg (mrs : shr_record) :
  0 <= shr_m mrs -> 0 <= shr_m (shr_1 mrs).
Proof.
  destruct mrs as [m r s]. simpl.
  destruct m as [|[p|p|]|[p|p|]]; simpl; lia.
Qed.

Lemma iter_shr_1_nonneg (p : positive) :
  forall mrs, 0 <= shr_m mrs -> 0 <= shr_m (iter_pos shr_1 p mrs).
Proof.
  induction p as [p IH|p IH|]; intros mrs H; simpl.
  - apply IH, IH, shr_1_nonneg, H.
  - apply IH, IH, H.
  - apply shr_1_nonneg, H.
Qed.

Lemma shr_fexp_nonneg (m e : Z) (l : location) :
  0 <= m -> 0 <= shr_m (fst (shr_fexp prec emax m e l)).
Proof.
  intros H. unfold shr_fexp, shr.
  assert (H0 : 0 <= shr_m (shr_record_of_loc m l))
    by (destruct l as [|[]]; exact H).
  destruct (fexp prec emax (Zdigits2 m + e) - e); simpl; try exact H0.
  apply iter_shr_1_nonneg, H0.
Qed.

Lemma binary_round_aux_not_NaN (sx : bool) (mx ex : Z) (lx : location) :
  0 <= mx -> isNaN (binary_round_aux prec emax sx mx ex lx) = false.
Proof.
  intros H. unfold binary_round_aux.
  pose proof (shr_fexp_nonneg mx ex lx H) as H1.
  destruct (shr_fexp prec emax mx ex lx) as [mrs e']. simpl in H1.
  assert (H2 : 0 <= round_nearest_even (shr_m mrs) (loc_of_shr_record mrs)).
  { unfold round_nearest_even.
    destruct (loc_of_shr_record mrs) as [|[]]; try lia.
    destruct (Z.even (shr_m mrs)); lia. }
  pose proof (shr_fexp_nonneg _ e' loc_Exact H2) as H3.
  destruct (shr_fexp prec emax _ e' loc_Exact) as [mrs' e'']. simpl in H3.
  destruct (shr_m mrs'); try reflexivity; [| lia].
  destruct (e'' <=? emax - prec); reflexivity.
Qed.

Lemma of_decimal_unsigned (m k : Z) :
  0 <= m ->
  not_negative (of_decimal false m k) = true
  /\ isNaN (of_decimal false m k) = false.
Proof.
  intros H. unfold of_decimal.
  destruct m as [|p|p]; [auto | | lia].
  destruct k as [|j|j].
  - unfold binary_round.
    destruct (shl_align _ _ _) as [mz ez].
    split; [apply binary_round_aux_not_negative
           | apply binary_round_aux_not_NaN; lia].
  - unfold binary_round.
    destruct (shl_align _ _ _) as [mz ez].
    split; [apply binary_round_aux_not_negative
           | apply binary_round_aux_not_NaN; lia].
  - unfold round_ratio.
    destruct (SFdiv_core_binary prec emax (Z.pos p) 0 (Z.pos (10 ^ j)) 0)
      as [[qz ez] lz] eqn:E.
    split; [apply binary_round_aux_not_negative |].
    apply binary_round_aux_not_NaN.
    unfold SFdiv_core_binary in E.
    match type of E with
    | context [Z.div_eucl ?a ?b] =>
        assert (A : 0 <= a);
        [| pose proof (Z_div_mod a b ltac:(lia)) as D;
           destruct (Z.div_eucl a b) as [q0 r0]; injection E as <- _ _; nia]
    end.
    destruct (0 - 0 - _); try lia. apply Z.shiftl_nonneg. lia.
Qed.

Lemma digit_or_point_plain (c : ascii) :
  Chars.is_digit c || Ascii.eqb c "." = true ->
  Chars.is_white_space c = false /\ c <> "+"%char /\ c <> "-"%char
  /\ c <> "I"%char.
Proof.
  destruct c as [[] [] [] [] [] [] [] []]; intros H; try discriminate H;
    repeat split; try reflexivity; discriminate.
Qed.

Lemma parseFloat_plain (c : ascii) (r : string) :
  Chars.is_white_space c = false -> c <> "+"%char -> c <> "-"%char ->
  parseFloat (String c r)
  = match parse_unsigned (String c r) with
    | None => NaN
    | Some LitInfinity => S754_infinity false
    | Some (LitDecimal i f e) =>
        of_decimal false (Chars.digits_value 0 (i ++ f))
                   (e - Z.of_nat (length f))
    end.
Proof.
  intros W P M. unfold parseFloat. cbn [Chars.trim_start]. rewrite W.
  destruct c as [[] [] [] [] [] [] [] []]; try reflexivity; congruence.
Qed.

Lemma span_digits_all (d : string) :
  Chars.all_digits d = true -> Chars.span_digits d = (d, EmptyString).
Proof.
  induction d as [|c d IH]; simpl; [reflexivity |].
  intros H. apply andb_prop in H. destruct H as [Hc Hd].
  rewrite Hc, (IH Hd). reflexivity.
Qed.

Lemma span_digits_point (d1 d2 : string) :
  Chars.all_digits d1 = true ->
  Chars.span_digits (d1 ++ String "." d2) = (d1, String "." d2).
Proof.
  induction d1 as [|c d IH]; simpl; [reflexivity |].
  intros H. apply andb_prop in H. destruct H as [Hc Hd].
  rewrite Hc, (IH Hd). reflexivity.
Qed.

Lemma prefix_Infinity (u : string) :
  only_digits_and_points u = true -> prefix "Infinity" u = false.
Proof.
  destruct u as [|c r]; [reflexivity |]. intros H.
  cbn [only_digits_and_points] in H.
  apply andb_prop in H. destruct H as [H _].
  destruct (digit_or_point_plain c H) as (_ & _ & _ & N).
  change (prefix "Infinity" (String c r))
    with (if ascii_dec "I" c then prefix "nfinity" r else false).
  destruct (ascii_dec "I" c) as [E |]; [congruence | reflexivity].
Qed.

Lemma parse_unsigned_digits (d : string) :
  Chars.all_digits d = true ->
  parse_unsigned d
  = if is_empty d then None else Some (LitDecimal d EmptyString 0).
Proof.
  intros H. unfold parse_unsigned.
  rewrite prefix_Infinity by (apply all_digits_no_point, H).
  rewrite (span_digits_all d H). destruct d; reflexivity.
Qed.

Lemma parse_unsigned_point (d1 d2 : string) :
  Chars.all_digits d1 = true -> Chars.all_digits d2 = true ->
  parse_unsigned (d1 ++ String "." d2)
  = if is_empty d1 && is_empty d2 then None
    else Some (LitDecimal d1 d2 0).
Proof.
  intros H1 H2. unfold parse_unsigned.
  rewrite prefix_Infinity.
  - rewrite (span_digits_point d1 d2 H1), (span_digits_all d2 H2).
    destruct d1, d2; reflexivity.
  - rewrite only_digits_and_points_app. simpl.
    destruct (all_digits_no_point d1 H1) as [-> _].
    destruct (all_digits_no_point d2 H2) as [-> _]. reflexivity.
Qed.

Lemma digits_value_nonneg (s : string) :
  forall acc, Chars.all_digits s = true -> 0 <= acc ->
              0 <= Chars.digits_value acc s.
Proof.
  induction s as [|c s IH]; intros acc H A;
    cbn [Chars.digits_value Chars.all_digits] in *; [exact A |].
  apply andb_prop in H. destruct H as [Hc Hs].
  apply IH; [exact Hs |].
  unfold Chars.is_digit in Hc. apply andb_prop in Hc. destruct Hc as [Hc _].
  apply Z.leb_le in Hc. unfold Chars.digit_val. lia.
Qed.

Lemma has_digit_all_digits (d : string) :
  Chars.all_digits d = true -> has_digit d = negb (is_empty d).
Proof.
  destruct d as [|c d]; simpl; [reflexivity |].
  intros H. apply andb_prop in H. destruct H as [-> _]. reflexivity.
Qed.

Lemma has_digit_app (a b : string) :
  has_digit (a ++ b) = has_digit a || has_digit b.
Proof.
  induction a as [|c a IH]; simpl; [reflexivity |].
  rewrite IH. apply orb_assoc.
Qed.

Lemma le_zero_unsigned (a : number) :
  not_negative a = true -> le a zero = true -> a = zero.
Proof.
  destruct a as [s|s| |s m e]; simpl; intros N L; try discriminate;
    destruct s; try discriminate; reflexivity.
Qed.

(** An amount the field accepts never parses to a negative number; it
    parses to NaN exactly when it holds no digit; and it counts as "not
    positive" for the validator and the calculator only when it holds no
    digit or its value is 0. *)
Theorem accepted_amounts_parse (value : string) :
  Regex.test amount_pattern value = true ->
  let a := parseFloat value in
  not_negative a = true
  /\ isNaN a = negb (has_digit value)
  /\ (isNaN a || le a zero = true -> has_digit value = false \/ a = zero).
Proof.
  intros H a.
  assert (Main : not_negative a = true /\ isNaN a = negb (has_digit value)).
  { rewrite amount_pattern_test in H. apply two_digit_runs_spec in H.
    destruct H as (d1 & d2 & H1 & H2 & E).
    assert (Plain : forall u i f,
               only_digits_and_points u = true ->
               Chars.all_digits i = true -> Chars.all_digits f = true ->
               forall none : bool,
               parse_unsigned u
               = (if none then None else Some (LitDecimal i f 0)) ->
               not_negative (parseFloat u) = true
               /\ isNaN (parseFloat u) = none).
    { intros u i f Hu Hi Hf none P.
      destruct u as [|c r]; [destruct none; [auto | discriminate P] |].
      simpl in Hu. apply andb_prop in Hu. destruct Hu as [Hc _].
      destruct (digit_or_point_plain c Hc) as (W & Pl & Mi & _).
      rewrite (parseFloat_plain c r W Pl Mi), P.
      destruct none; [auto |].
      apply of_decimal_unsigned, digits_value_nonneg; [| lia].
      rewrite all_digits_app, Hi, Hf. reflexivity. }
    destruct E as [E | E]; subst value; unfold a.
    - assert (D : Chars.all_digits (d1 ++ d2) = true)
        by (rewrite all_digits_app, H1, H2; reflexivity).
      rewrite (has_digit_all_digits _ D), negb_involutive.
      apply (Plain _ (d1 ++ d2)%string EmptyString);
        [apply all_digits_no_point, D | exact D | reflexivity |].
      apply parse_unsigned_digits, D.
    - rewrite has_digit_app. simpl.
      rewrite (has_digit_all_digits _ H1), (has_digit_all_digits _ H2).
      rewrite <- negb_andb, negb_involutive.
      apply (Plain _ d1 d2); auto using parse_unsigned_point.
      rewrite only_digits_and_points_app. simpl.
      destruct (all_digits_no_point d1 H1) as [-> _].
      destruct (all_digits_no_point d2 H2) as [-> _]. reflexivity. }
  destruct Main as [N Na]. split; [exact N | split; [exact Na |]].
  intros L. apply orb_prop in L. destruct L as [L | L].
  - left. rewrite Na in L. destruct (has_digit value); [discriminate | auto].
  - right. apply le_zero_unsigned; assumption.
Qed.

Lemma accepted_amounts_parse_witness :
  not_negative (parseFloat "12.5") = true
  /\ isNaN (parseFloat ".") = true.
Proof.
  split.
  - apply (accepted_amounts_parse "12.5"). reflexivity.
  - apply (proj1 (proj2 (accepted_amounts_parse "." eq_refl))).
Defined.

(** ** The rate line, the notification, the icons *)

(** The rate line is shown only for a conversion that took place: whenever
    it is on screen in a state the component settles in, both currencies
    are selected, distinct and priced, the amount is in (0, 10^12], the rate
    it prints is the one of the two prices and the receive amount is the
    amount converted at that rate.  It never shows the rate of a reset
    result. *)
Theorem rate_line_shows_a_real_rate
  (toLocaleString : number -> string) (evs : list event) (line : string) :
  let s := run_events toLocaleString evs in
  rate_line s = Some line ->
  exists from to fromPrice toPrice,
    fromCurrency s = Some from /\ toCurrency s = Some to
    /\ code from <> code to
    /\ JSMap.get (code from) (cryptoPricesInUSD s) = Some fromPrice
    /\ JSMap.get (code to) (cryptoPricesInUSD s) = Some toPrice
    /\ amount_in_range (parseFloat (amountToSend s)) = true
    /\ line = ("1 " ++ code from ++ " = "
               ++ toFixed 8 (div toPrice fromPrice) ++ " " ++ code to)%string
    /\ amountToReceive s
       = toFixed 8 (mul (parseFloat (amountToSend s))
                        (div toPrice fromPrice)).
Proof.
  intros s H.
  destruct (run_events_consistent toLocaleString evs) as (C1 & C2 & _).
  fold s in C1, C2. unfold rate_line in H.
  destruct (fromCurrency s) as [from|] eqn:Hf; [| discriminate].
  destruct (toCurrency s) as [to|] eqn:Ht; [| discriminate].
  destruct (gt (exchangeRate s) zero) eqn:G; [| discriminate].
  destruct (String.eqb_spec (code from) (code to)) as [| Hc];
    [discriminate |].
  simpl in H. injection H as <-.
  destruct (ready s) eqn:E;
    [| destruct (C2 eq_refl) as (_ & _ & F & _); congruence].
  specialize (C1 eq_refl). unfold result_of in C1. rewrite Hf, Ht in C1.
  destruct (amount_in_range (parseFloat (amountToSend s))) eqn:Ha;
    [| injection C1 as _ C1; rewrite C1 in G; discriminate].
  apply String.eqb_neq in Hc. rewrite Hc in C1. simpl in C1.
  apply String.eqb_neq in Hc.
  destruct (usable_price (cryptoPricesInUSD s) from) as [fp|] eqn:Uf;
    [| injection C1 as _ C1; rewrite C1 in G; discriminate].
  destruct (usable_price (cryptoPricesInUSD s) to) as [tp|] eqn:Ut;
    [| injection C1 as _ C1; rewrite C1 in G; discriminate].
  injection C1 as C1 C1'.
  apply usable_price_get in Uf. apply usable_price_get in Ut.
  exists from, to, fp, tp. rewrite C1'. repeat split; auto.
Qed.

Lemma rate_line_shows_a_real_rate_witness :
  exists from to fromPrice toPrice,
    fromCurrency two_btc_state = Some from
    /\ toCurrency two_btc_state = Some to
    /\ code from <> code to
    /\ JSMap.get (code from) (cryptoPricesInUSD two_btc_state)
       = Some fromPrice
    /\ JSMap.get (code to) (cryptoPricesInUSD two_btc_state) = Some toPrice
    /\ amount_in_range (parseFloat (amountToSend two_btc_state)) = true
    /\ "1 BTC = 0.05000000 ETH"
       = ("1 " ++ code from ++ " = "
          ++ toFixed 8 (div toPrice fromPrice) ++ " " ++ code to)%string
    /\ amountToReceive two_btc_state
       = toFixed 8 (mul (parseFloat (amountToSend two_btc_state))
                        (div toPrice fromPrice)).
Proof.
  apply (rate_line_shows_a_real_rate en_US
           [FetchResolved btc_eth_feed; AmountChange "2"]
           "1 BTC = 0.05000000 ETH").
  reflexivity.
Defined.

Lemma verdict_of_selected (r : State) :
  verdict_of r = true ->
  exists from to,
    fromCurrency r = Some from /\ toCurrency r = Some to
    /\ code from <> code to.
Proof.
  unfold verdict_of, same_code.
  destruct (amount_ok (amountToSend r)); [| discriminate].
  destruct (fromCurrency r) as [from|], (toCurrency r) as [to|];
    try discriminate. simpl.
  destruct (String.eqb_spec (code from) (code to)); [discriminate |].
  intros _. exists from, to. auto.
Qed.

(** The notification always names two currencies: [handleSwap] schedules
    it only when the validator accepts the form, and then both optional
    codes of the message are there, so "undefined" is never printed for a
    currency; when the validator rejects the form nothing is scheduled and
    no swap starts. *)
Theorem toast_names_both_currencies
  (toLocaleString : number -> string) (r : State) :
  (forall message,
      scheduled_toast toLocaleString r = Some message ->
      exists from to,
        fromCurrency r = Some from /\ toCurrency r = Some to
        /\ code from <> code to
        /\ message
           = ("Successfully swapped  " ++ amountToSend r ++ " " ++ code from
              ++ " for " ++ amountToReceive r ++ " " ++ code to)%string
        /\ isSwapping (exec (handleSwap toLocaleString r) r) = true)
  /\ (scheduled_toast toLocaleString r = None ->
      isSwapping (exec (handleSwap toLocaleString r) r) = isSwapping r).
Proof.
  unfold scheduled_toast, handleSwap, exec, bind.
  destruct (eval (validateForm toLocaleString r) r) eqn:V.
  - split; [| discriminate]. intros message [= <-].
    unfold eval in V. rewrite validateForm_run in V |- *. simpl in V |- *.
    destruct (verdict_of_selected r V) as (from & to & Hf & Ht & Hc).
    exists from, to. unfold success_message. rewrite Hf, Ht, V.
    repeat split; auto.
  - split; [discriminate |]. intros _.
    unfold eval in V. rewrite validateForm_run in V |- *. simpl in V |- *.
    rewrite V. reflexivity.
Qed.

Lemma toast_names_both_currencies_witness :
  exists from to,
    fromCurrency two_btc_state = Some from
    /\ toCurrency two_btc_state = Some to
    /\ code from <> code to
    /\ "Successfully swapped  2 BTC for 0.10000000 ETH"
       = ("Successfully swapped  " ++ amountToSend two_btc_state ++ " "
          ++ code from ++ " for " ++ amountToReceive two_btc_state ++ " "
          ++ code to)%string
    /\ isSwapping (exec (handleSwap en_US two_btc_state) two_btc_state)
       = true.
Proof.
  apply (proj1 (toast_names_both_currencies en_US two_btc_state)).
  reflexivity.
Defined.

Lemma append_inv_tail (t : string) :
  forall a b : string, (a ++ t = b ++ t)%string -> a = b.
Proof.
  assert (L : forall a b : string,
             (a ++ t = b ++ t)%string -> length a = length b).
  { intros a b H. apply (f_equal length) in H.
    rewrite !length_app in H. lia. }
  induction a as [|x a IH]; intros b H.
  - apply L in H. destruct b; [reflexivity | discriminate].
  - pose proof (L _ _ H) as Len. destruct b as [|y b]; [discriminate |].
    simpl in H. injection H as -> H. f_equal. apply IH, H.
Qed.

(** Two currencies share an icon address only if they share their code,
    and the fallback address is the icon address of the code "default"
    and of no other code. *)
Theorem icon_addresses_are_distinct (code1 code2 : string) :
  (icon_src code1 = icon_src code2 <-> code1 = code2)
  /\ (icon_src code1 = icon_fallback <-> code1 = "default").
Proof.
  unfold icon_src, icon_fallback. split; split.
  - intros H. simpl in H. injection H as H.
    apply (append_inv_tail ".svg"), H.
  - intros ->. reflexivity.
  - intros H. simpl in H. injection H as H.
    apply (append_inv_tail ".svg" code1 "default"), H.
  - intros ->. reflexivity.
Qed.
